(** * python-multitest.py: the proxy tester and its batch runner

    A shallow embedding of [src/python-multitest.py].

    - Python [str] values are Rocq [string]s whose characters are read as the
      code points U+0000..U+00FF; the character classes of [re] and
      [str.lower] below are Python's on that range.
    - Python [int] values are [Z].
    - A CSV row, as the field names of [test_proxy] see it, is a [dict]
      from column names to a string or to [None] (what [csv.DictReader]
      stores for a column that the record is too short for): a
      [gmap string (option string)].
    - The network call and the JSON decoding are the environment of
      [test_proxy]: what they return or raise is the [network] given to the
      model, and the local variables of [test_proxy] are threaded through
      the [try] / [except] / [finally] blocks explicitly.
    - [process_proxies] starts from the rows that [read_csv] returned and
      takes the order in which the tasks complete as an argument; the
      progress line that each task prints is left out, and writing to the
      file and to the console is taken to succeed.
    - [read_csv] starts from the records that [csv.reader] yields for the
      file, and builds its rows as [csv.DictReader] does. *)

From Stdlib Require Import ZArith NArith Ascii String List Lia Bool SpecFloat.
From stdpp Require Import base option list gmap strings.

Local Open Scope string_scope.
#[local] Arguments String.append !_ _ / : simpl nomatch.

(** ** Strings *)

Module Str.

Definition ord (c : ascii) : N := N_of_ascii c.

(** [str.isspace] on one character, which is also [\s] of a [str] pattern. *)
Definition isspace (c : ascii) : bool :=
  let n := ord c in
  ((9 <=? n) && (n <=? 13) || (28 <=? n) && (n <=? 32)
   || (n =? 133) || (n =? 160))%N.

(** [\d] of a [str] pattern: the decimal digits. *)
Definition isdecimal (c : ascii) : bool :=
  let n := ord c in ((48 <=? n) && (n <=? 57))%N.

(** The value [int] gives to a decimal digit. *)
Definition digit_value (c : ascii) : Z := Z.of_N (ord c) - 48.

(** [str.lower] on one character. *)
Definition lower_char (c : ascii) : ascii :=
  let n := ord c in
  if ((65 <=? n) && (n <=? 90)
      || (192 <=? n) && (n <=? 222) && negb (n =? 215))%N
  then ascii_of_N (n + 32) else c.

(** [str.lower]. *)
Fixpoint lower (s : string) : string :=
  match s with
  | EmptyString => EmptyString
  | String c s' => String (lower_char c) (lower s')
  end.

Fixpoint all (p : ascii -> bool) (s : string) : bool :=
  match s with
  | EmptyString => true
  | String c s' => p c && all p s'
  end.

(** [int(s)] for a string of decimal digits. *)
Definition int (s : string) : Z :=
  fold_left (fun acc c => 10 * acc + digit_value c)%Z
            (list_ascii_of_string s) 0%Z.

(** Truth value of a [str]: non-empty. *)
Definition truthy (s : string) : bool :=
  match s with EmptyString => false | String _ _ => true end.

End Str.

(** ** [extract_status_from_error]

    The pattern is [(?:HTTP|status)\s+(\d{3})] under [re.IGNORECASE]. *)

Module Re.

(** A literal of the pattern under [re.IGNORECASE], matched at the head of
    [s]; the text after it. *)
Fixpoint literal_ignorecase (lit s : string) : option string :=
  match lit with
  | EmptyString => Some s
  | String p lit' =>
      match s with
      | EmptyString => None
      | String c s' =>
          if Ascii.eqb (Str.lower_char c) (Str.lower_char p)
          then literal_ignorecase lit' s'
          else None
      end
  end.

(** [(?:HTTP|status)]: the first alternative, then the second. *)
Definition keyword (s : string) : option string :=
  match literal_ignorecase "HTTP" s with
  | Some rest => Some rest
  | None => literal_ignorecase "status" s
  end.

Fixpoint skip_spaces (s : string) : string :=
  match s with
  | EmptyString => EmptyString
  | String c s' => if Str.isspace c then skip_spaces s' else s
  end.

(** [\s+], greedy: one whitespace character, then as many as follow.  A
    shorter run is never followed by a digit, so giving characters back
    cannot make [\d{3}] match. *)
Definition spaces1 (s : string) : option string :=
  match s with
  | String c s' => if Str.isspace c then Some (skip_spaces s') else None
  | EmptyString => None
  end.

(** [(\d{3})]: the captured group. *)
Definition digits3 (s : string) : option string :=
  match s with
  | String a (String b (String c _)) =>
      if Str.isdecimal a && Str.isdecimal b && Str.isdecimal c
      then Some (String a (String b (String c EmptyString)))
      else None
  | _ => None
  end.

(** The whole pattern matched at the head of [s]: group 1. *)
Definition match_here (s : string) : option string :=
  match keyword s with
  | Some rest =>
      match spaces1 rest with
      | Some rest' => digits3 rest'
      | None => None
      end
  | None => None
  end.

(** [re.search]: the match at the leftmost position that has one. *)
Fixpoint search (s : string) : option string :=
  match match_here s with
  | Some g => Some g
  | None =>
      match s with
      | EmptyString => None
      | String _ s' => search s'
      end
  end.

End Re.

Definition extract_status_from_error (error_message : string) : Z :=
  match Re.search error_message with
  | Some g => Str.int g
  | None => 0%Z
  end.

(** ** Python values, exceptions and results *)

Set Warnings "-register-all".

(** What [response.json()] can return: a decoded JSON document. *)
Inductive value :=
| VNone
| VBool (b : bool)
| VInt (n : Z)
| VFloat (f : spec_float)
| VStr (s : string)
| VList (l : list value)
| VDict (d : gmap string value).

(** The classes of [requests.exceptions] that the [except] clauses of
    [test_proxy] name. *)
Inductive exc_class :=
| HTTPError | ProxyError | ConnectionError | Timeout | RequestException.

(** An exception.  [KeyError] and [AttributeError] are the ones the code
    itself can raise; [Raised isa msg response] is any exception coming out
    of [requests]: which of the named classes it is an instance of, its
    [str()], and the status code of its [response] attribute ([None] when
    that attribute is [None]). *)
Inductive exception :=
| KeyError (key : string)
| AttributeError (msg : string)
| Raised (isa : exc_class -> bool) (msg : string) (response : option Z).

(** A call either returns a value or raises. *)
Inductive result (A : Type) :=
| Return (a : A)
| Raise (e : exception).
Arguments Return {A} a.
Arguments Raise {A} e.

#[global] Instance result_ret : MRet result := @Return.
#[global] Instance result_bind : MBind result := fun A B k m =>
  match m with
  | Return a => k a
  | Raise e => Raise e
  end.

Module Py.

(** Truth value, as [or] and [if] test it. *)
Definition truthy (v : value) : bool :=
  match v with
  | VNone => false
  | VBool b => b
  | VInt n => negb (n =? 0)%Z
  | VFloat (S754_zero _) => false
  | VFloat _ => true
  | VStr s => Str.truthy s
  | VList l => match l with [] => false | _ :: _ => true end
  | VDict d => negb (bool_decide (d = ∅))
  end.

Definition type_name (v : value) : string :=
  match v with
  | VNone => "NoneType"
  | VBool _ => "bool"
  | VInt _ => "int"
  | VFloat _ => "float"
  | VStr _ => "str"
  | VList _ => "list"
  | VDict _ => "dict"
  end.

Definition isinstance (e : exception) (c : exc_class) : bool :=
  match e with
  | Raised isa _ _ => isa c
  | _ => false
  end.

(** [d[k]] on a [dict]. *)
Definition getitem {V} (d : gmap string V) (k : string) : result V :=
  match d !! k with
  | Some v => Return v
  | None => Raise (KeyError k)
  end.

(** [v.get(k, dflt)]: a [dict] method, an [AttributeError] on the other
    JSON types. *)
Definition get (v : value) (k : string) (dflt : value) : result value :=
  match v with
  | VDict d => Return (default dflt (d !! k))
  | _ => Raise (AttributeError
                  ("'" ++ type_name v ++ "' object has no attribute 'get'"))
  end.

(** [l[:n]] on a [list]: a negative [n] counts from the end. *)
Definition slice_to {A} (l : list A) (n : Z) : list A :=
  if (0 <=? n)%Z then take (Z.to_nat n) l
  else take (length l - Z.to_nat (- n)) l.

End Py.

(** ** [test_proxy] *)

Record ProxyResult := {
  proxy : option string;
  status : Z;
  location : option string;
  real_location : value;
  error : string
}.

Definition TARGET_URL : string := "https://ipinfo.io/json".

(** A [requests.Response]: its [status_code] and what its [json()] method
    does. *)
Record Response := {
  status_code : Z;
  json : result value
}.

(** The arguments of [requests.get] and the network answering them: the
    environment of one call of [test_proxy]. *)
Record request := {
  url : string;
  proxies : gmap string (option string);
  timeout : Z
}.

Definition network : Type := request -> result Response.

(** The local variables that the [try] statement assigns. *)
Record locals := {
  v_real_location : value;
  v_status_code : Z;
  v_error_message : string
}.

Definition set_real_location (v : value) (l : locals) : locals :=
  {| v_real_location := v;
     v_status_code := v_status_code l;
     v_error_message := v_error_message l |}.

Definition set_status_code (c : Z) (l : locals) : locals :=
  {| v_real_location := v_real_location l;
     v_status_code := c;
     v_error_message := v_error_message l |}.

Definition set_error_message (m : string) (l : locals) : locals :=
  {| v_real_location := v_real_location l;
     v_status_code := v_status_code l;
     v_error_message := m |}.

(** [v.lower()] on a value of a row: a [str] method, an [AttributeError] on
    [None]. *)
Definition lower_of (v : option string) : result string :=
  match v with
  | Some s => Return (Str.lower s)
  | None =>
      Raise (AttributeError "'NoneType' object has no attribute 'lower'")
  end.

(** A value of a row as an f-string formats it. *)
Definition format_of (v : option string) : string := default "None" v.

(** Lines 35-38: the proxy URL, [None] when the row holds [None] for the
    proxy column and no protocol field is used.  [if protocol_field:] is
    false for [None] and for the empty string. *)
Definition proxy_url_of (row : gmap string (option string))
    (proxy_field : string) (protocol_field : option string)
  : result (option string) :=
  proxy_url ← Py.getitem row proxy_field;
  match protocol_field with
  | Some pf =>
      if Str.truthy pf then
        v ← Py.getitem row pf;
        v ← lower_of v;
        let protocol := if String.eqb v "yes" then "https" else "http" in
        a ← Py.getitem row proxy_field;
        mret (Some (protocol ++ "://" ++ format_of a))
      else mret proxy_url
  | None => mret proxy_url
  end.

(** Lines 41 and 48: the arguments of [requests.get]. *)
Definition request_through (proxy_url : option string) : request :=
  {| url := TARGET_URL;
     proxies := <["http" := proxy_url]> (<["https" := proxy_url]> ∅);
     timeout := 5 |}.

(** Lines 48-50: the body of [try].  The locals as the body leaves them,
    and the exception it raised, if any. *)
Definition try_body (requests_get : network) (proxy_url : option string)
    (l : locals) : locals * option exception :=
  match requests_get (request_through proxy_url) with
  | Raise e => (l, Some e)
  | Return response =>
      match j ← json response; Py.get j "timezone" (VStr "Unknown") with
      | Raise e => (l, Some e)
      | Return tz =>
          let l := set_real_location tz l in
          (set_status_code (status_code response) l, None)
      end
  end.

(** Lines 51-63: the [except] clauses, tried in order.  A clause may itself
    raise ([e.response] is [None]); an exception no clause names stays
    pending. *)
Definition except_clauses (e : exception) (l : locals)
  : locals * option exception :=
  match e with
  | Raised isa msg response =>
      if isa HTTPError then
        match response with
        | Some c =>
            let l := set_status_code c l in
            (set_error_message ("HTTPError: " ++ msg) l, None)
        | None =>
            (l, Some (AttributeError
                        "'NoneType' object has no attribute 'status_code'"))
        end
      else if isa ProxyError then
        let l := set_error_message ("ProxyError: " ++ msg) l in
        (set_status_code (extract_status_from_error msg) l, None)
      else if isa ConnectionError then
        let l := set_error_message ("ConnectionError: " ++ msg) l in
        (set_status_code (extract_status_from_error msg) l, None)
      else if isa Timeout then
        (set_error_message ("TimeoutError: " ++ msg) l, None)
      else if isa RequestException then
        (set_error_message ("RequestException: " ++ msg) l, None)
      else (l, Some e)
  | _ => (l, Some e)
  end.

Definition try_except (requests_get : network)
    (proxy_url : option string)
    (l : locals) : locals * option exception :=
  match try_body requests_get proxy_url l with
  | (l', Some e) => except_clauses e l'
  | (l', None) => (l', None)
  end.

(** [row.get(location_field, "Unknown") if location_field else "Unknown"]. *)
Definition location_of (row : gmap string (option string))
    (location_field : option string) : option string :=
  match location_field with
  | Some lf =>
      if Str.truthy lf then default (Some "Unknown") (row !! lf)
      else Some "Unknown"
  | None => Some "Unknown"
  end.

(** Lines 64-73: the [finally] block and the value it returns. *)
Definition finally_block (row : gmap string (option string))
    (location_field : option string) (proxy_url : option string) (l : locals)
  : ProxyResult :=
  let status_code :=
    if (v_status_code l <? 200)%Z then 0%Z else v_status_code l in
  {| proxy := proxy_url;
     status := status_code;
     location := location_of row location_field;
     real_location :=
       if Py.truthy (v_real_location l) then v_real_location l
       else VStr "Failed";
     error := v_error_message l |}.

(** Lines 42-45: the locals before the [try] statement. *)
Definition initial_locals : locals :=
  {| v_real_location := VNone;
     v_status_code := 0;
     v_error_message := "" |}.

(** [test_proxy].  The [finally] block ends in [return]: the exception that
    is pending when it runs, if any, is dropped there. *)
Definition test_proxy (requests_get : network)
    (row : gmap string (option string)) (proxy_field : string)
    (location_field protocol_field : option string)
  : result ProxyResult :=
  proxy_url ← proxy_url_of row proxy_field protocol_field;
  let '(l, _pending) := try_except requests_get proxy_url initial_locals in
  mret (finally_block row location_field proxy_url l).

(** ** [process_proxies] *)

(** Lines 77-79: the rows that go to the pool.  [if limit:] is false for
    [None] and for [0]. *)
Definition submitted (rows : list (gmap string (option string)))
    (limit : option Z)
  : list (gmap string (option string)) :=
  match limit with
  | Some n => if negb (n =? 0)%Z then Py.slice_to rows n else rows
  | None => rows
  end.

Inductive console_line :=
| Result_saved (r : ProxyResult)
| Error_processing (e : exception).

(** The output file (its header and the rows given to [writerow], in the
    order written) and the console. *)
Record output := {
  header : list string;
  written : list ProxyResult;
  printed : list console_line
}.

(** Line 90: one future per row, in the order of submission; [net i] is
    the network as the [i]-th task meets it. *)
Definition futures_of (net : nat -> network)
    (rows : list (gmap string (option string)))
    (proxy_field : string) (location_field protocol_field : option string)
  : list (result ProxyResult) :=
  imap (fun i row =>
          test_proxy (net i) row proxy_field location_field protocol_field)
       rows.

(** Lines 93-98: the body of the loop over [as_completed], for the future
    submitted [i]-th.  [as_completed] yields submitted futures only, so the
    last case does not arise. *)
Definition collect (futures : list (result ProxyResult)) (out : output)
    (i : nat) : output :=
  match futures !! i with
  | Some (Return r) =>
      {| header := header out;
         written := written out ++ [r];
         printed := printed out ++ [Result_saved r] |}
  | Some (Raise e) =>
      {| header := header out;
         written := written out;
         printed := printed out ++ [Error_processing e] |}
  | None => out
  end.

(** [process_proxies], after [read_csv] has returned [rows].  [completed] is
    the order in which [as_completed] yields the futures, by index of
    submission. *)
Definition process_proxies (net : nat -> network) (completed : list nat)
    (rows : list (gmap string (option string))) (proxy_field : string)
    (location_field protocol_field : option string) (limit : option Z)
  : output :=
  let rows := submitted rows limit in
  let futures :=
    futures_of net rows proxy_field location_field protocol_field in
  foldl (collect futures)
        {| header := ["proxy"; "status"; "location"; "real_location"; "error"];
           written := [];
           printed := [] |}
        completed.

(** ** [read_csv] *)

(** [str.lstrip()], [str.rstrip()] and [str.strip()] without argument:
    whitespace is what [str.isspace] says. *)
Fixpoint lstrip (s : string) : string :=
  match s with
  | EmptyString => EmptyString
  | String c s' => if Str.isspace c then lstrip s' else s
  end.

Fixpoint rstrip (s : string) : string :=
  match s with
  | EmptyString => EmptyString
  | String c s' =>
      match rstrip s' with
      | EmptyString => if Str.isspace c then EmptyString else String c EmptyString
      | r => String c r
      end
  end.

Definition strip (s : string) : string := rstrip (lstrip s).

(** A value of a row of [csv.DictReader]: a field of the record, the list
    of the fields beyond the header (under the key [None], the [restkey]),
    or [None] (the [restval]) for a column the record is too short for. *)
Inductive cell :=
| Field (s : string)
| Rest (fields : list string)
| Restval.

(** [dict(zip(fieldnames, row))]: a later pair replaces an earlier one
    with the same key. *)
Definition dict_zip (fieldnames row : list string)
  : gmap (option string) cell :=
  foldl (fun d kv => <[Some kv.1 := Field kv.2]> d) ∅ (zip fieldnames row).

(** [DictReader.__next__] on one record that is not blank. *)
Definition dict_row (fieldnames row : list string)
  : gmap (option string) cell :=
  let d := dict_zip fieldnames row in
  let lf := length fieldnames in
  let lr := length row in
  if Nat.ltb lf lr then <[None := Rest (drop lf row)]> d
  else if Nat.ltb lr lf then
    foldl (fun d key => <[Some key := Restval]> d) d (drop lr fieldnames)
  else d.

(** Lines 18-24: [read_csv], on the records that [csv.reader] yields for the
    file (a blank line is the record [[]]).  The first record is the header;
    on an empty file [reader.fieldnames] is [None] and iterating over it
    raises [TypeError]: the result is [None] then. *)
Definition read_csv (records : list (list string))
  : option (list (gmap (option string) cell)) :=
  match records with
  | [] => None
  | fieldnames :: records =>
      let fieldnames := strip <$> fieldnames in
      Some (dict_row fieldnames
              <$> filter (fun row => row <> []) records)
  end.

(** A value of a row of [csv.DictReader] under a field name: a string or
    [None].  The list of the fields beyond the header is under the key
    [None] only, which is no field name. *)
Definition cell_value (c : cell) : option (option string) :=
  match c with
  | Field s => Some (Some s)
  | Restval => Some None
  | Rest _ => None
  end.

(** A row of [read_csv] as [test_proxy] looks it up: by field name. *)
Definition seen_by_name (d : gmap (option string) cell)
  : gmap string (option string) :=
  list_to_map
    (omap (fun kc : option string * cell =>
             match kc with
             | (Some k, c) =>
                 match cell_value c with
                 | Some v => Some (k, v)
                 | None => None
                 end
             | (None, _) => None
             end)
          (map_to_list d)).


(** ** The driver *)

Definition LIMIT : Z := 20.

(** [os.path.join("results", output_file)], on POSIX. *)
Definition results_path (output_file : string) : string :=
  match output_file with
  | String "/"%char _ => output_file
  | _ => "results/" ++ output_file
  end.

(** What one call of [process_proxies] meets: the rows that [read_csv]
    returns for the input file, as [process_proxies] above takes them
    ([None] when [read_csv] raises, the file being unreadable or empty),
    the network of each task and the order of completion. *)
Record batch_env := {
  rows_read : option (list (gmap string (option string)));
  net_of : nat -> network;
  completion : list nat
}.

(** Lines 75-98 as a whole: nothing is written when [read_csv] raises. *)
Definition process_file (env : batch_env) (output_file proxy_field : string)
    (location_field protocol_field : option string) (limit : option Z)
  : option (string * output) :=
  rows ← rows_read env;
  Some (results_path output_file,
        process_proxies (net_of env) (completion env) rows proxy_field
                        location_field protocol_field limit).

(** Calls made one after the other: an exception in one of them ends the
    run.  The results of the calls that returned, and whether all did. *)
Fixpoint until_failure {A} (calls : list (option A)) : list A * bool :=
  match calls with
  | [] => ([], true)
  | None :: _ => ([], false)
  | Some a :: calls =>
      let '(done, ok) := until_failure calls in (a :: done, ok)
  end.

(** Lines 100-122: the four batches of the driver. *)
Definition main (proxyscape free_proxy proxy_nova geonode : batch_env)
  : list (string * output) * bool :=
  until_failure
    [process_file proxyscape "proxyscrape-results.csv" "proxy"
                  (Some "ip_data_timezone") None (Some LIMIT);
     process_file free_proxy "free-proxy-list-results.csv" "IP Address"
                  (Some "Country") (Some "Https") (Some LIMIT);
     process_file proxy_nova "proxynova-results.csv" "proxy"
                  (Some "Proxy Country") None (Some LIMIT);
     process_file geonode "geonode-results.csv" "proxy"
                  (Some "country") None (Some LIMIT)].

(** * Notions used to state the properties *)

(** ** The status token of an error message

    What the pattern of [extract_status_from_error] denotes, stated without
    the matcher: a keyword in any case, at least one whitespace character,
    three decimal digits. *)

Module Token.

Definition is_keyword (k : string) : Prop :=
  Str.lower k = "http" \/ Str.lower k = "status".

(** [t] is a token and [n] the number its three digits spell. *)
Definition is_token (t : string) (n : Z) : Prop :=
  exists k w a b c,
    t = k ++ w ++ String a (String b (String c "")) /\
    is_keyword k /\
    w <> "" /\ Str.all Str.isspace w = true /\
    Str.isdecimal a = true /\ Str.isdecimal b = true /\
    Str.isdecimal c = true /\
    n = (100 * Str.digit_value a + 10 * Str.digit_value b
         + Str.digit_value c)%Z.

(** A token with number [n] starts at offset [i] of [s]. *)
Definition occurs_at (s : string) (i : nat) (n : Z) : Prop :=
  exists pre t post,
    s = pre ++ t ++ post /\ String.length pre = i /\ is_token t n.

(** The token at offset [i] is the first one of [s]. *)
Definition first_at (s : string) (i : nat) (n : Z) : Prop :=
  occurs_at s i n /\ forall j m, j < i -> ~ occurs_at s j m.

End Token.

(** The status as the [finally] block normalises it. *)
Definition normalized (c : Z) : Z := if (c <? 200)%Z then 0%Z else c.

(** The clause that handles an exception of [requests], by the label it
    gives the error: the first clause, in the order of the source, that
    names a class of the exception.  The [HTTPError] clause sets the error
    only when the exception carries a response. *)
Definition handled_as (isa : exc_class -> bool) (response : option Z)
    (label : string) : Prop :=
  (label = "HTTPError" /\ isa HTTPError = true /\ is_Some response) \/
  (label = "ProxyError" /\ isa HTTPError = false /\
   isa ProxyError = true) \/
  (label = "ConnectionError" /\ isa HTTPError = false /\
   isa ProxyError = false /\ isa ConnectionError = true) \/
  (label = "TimeoutError" /\ isa HTTPError = false /\
   isa ProxyError = false /\ isa ConnectionError = false /\
   isa Timeout = true) \/
  (label = "RequestException" /\ isa HTTPError = false /\
   isa ProxyError = false /\ isa ConnectionError = false /\
   isa Timeout = false /\ isa RequestException = true).

(** The result of a test in which the [try] statement recorded nothing. *)
Definition nothing_recorded (row : gmap string (option string))
    (location_field proxy_url : option string) : ProxyResult :=
  {| proxy := proxy_url;
     status := 0;
     location := location_of row location_field;
     real_location := VStr "Failed";
     error := "" |}.

(** What a future holds. *)
Definition returned {A} (f : result A) : option A :=
  match f with Return a => Some a | Raise _ => None end.

Definition raised {A} (f : result A) : option exception :=
  match f with Return _ => None | Raise e => Some e end.

(** The errors logged on the console. *)
Definition error_lines (console : list console_line) : list exception :=
  omap (fun line => match line with
                    | Error_processing e => Some e
                    | Result_saved _ => None
                    end) console.

(** The results that the console reports as saved. *)
Definition saved_lines (console : list console_line) : list ProxyResult :=
  omap (fun line => match line with
                    | Result_saved r => Some r
                    | Error_processing _ => None
                    end) console.

(** ** Sample inputs *)

(** A row of the free-proxy-list file, and networks that answer every
    request the same way. *)
Definition free_proxy_row (https : string) : gmap string (option string) :=
  <["IP Address" := Some "1.2.3.4:8080"]>
    (<["Https" := Some https]> (<["Country" := Some "Iceland"]> ∅)).

Definition unreachable : network :=
  fun _ =>
    Raise (Raised (fun c => match c with
                            | ConnectionError | RequestException => true
                            | _ => false
                            end)
                  "Max retries exceeded with url: /json" None).

Definition answers (code : Z) (body : result value) : network :=
  fun _ => Return {| status_code := code; json := body |}.

(** What [response.json()] raises on a body that is not JSON: a
    [requests.exceptions.JSONDecodeError], a [RequestException]. *)
Definition json_decode_error : exception :=
  Raised (fun c => match c with RequestException => true | _ => false end)
         "Expecting value: line 1 column 1 (char 0)" None.

(** The row of a record that ends after its first field:
    [csv.DictReader] gives the columns it does not reach the value
    [None]. *)
Definition short_record_row : gmap string (option string) :=
  <["IP Address" := Some "1.2.3.4:8080"]>
    (<["Https" := None]> (<["Country" := None]> ∅)).

(** A batch of three rows, the second without the proxy column, whose tasks
    complete in the order third, first, second. *)
Definition sample_rows : list (gmap string (option string)) :=
  [free_proxy_row "yes"; ∅; free_proxy_row "no"].

(** * Properties *)

Example extract_http_403 :
  extract_status_from_error "Tunnel failed: HTTP 403 Forbidden" = 403%Z.
Proof. reflexivity. Qed.

Example extract_status_502 :
  extract_status_from_error "bad STATUS   502" = 502%Z.
Proof. reflexivity. Qed.

Example extract_none :
  extract_status_from_error "Connection refused (errno 111)" = 0%Z.
Proof. reflexivity. Qed.

(** Of two tokens the first one counts, and a longer run of digits gives its
    first three. *)
Example extract_first_of_two :
  extract_status_from_error "status 502 after HTTP 403" = 502%Z.
Proof. reflexivity. Qed.

Example extract_three_of_four_digits :
  extract_status_from_error "HTTP 4035" = 403%Z.
Proof. reflexivity. Qed.

Example extract_needs_whitespace :
  extract_status_from_error "HTTP/1.1 407 and status=502" = 0%Z.
Proof. reflexivity. Qed.

Section StringFacts.

Lemma app_assoc_str (a b c : string) : (a ++ b) ++ c = a ++ b ++ c.
Proof. induction a as [|x a IH]; simpl; congruence. Qed.

Lemma app_nil_r_str (a : string) : a ++ "" = a.
Proof. induction a as [|x a IH]; simpl; congruence. Qed.

Lemma digit_not_space (c : ascii) :
  Str.isdecimal c = true -> Str.isspace c = false.
Proof.
  destruct c as [[] [] [] [] [] [] [] []]; vm_compute; congruence.
Qed.

Lemma int_digits3 (a b c : ascii) :
  Str.int (String a (String b (String c ""))) =
  (100 * Str.digit_value a + 10 * Str.digit_value b + Str.digit_value c)%Z.
Proof. unfold Str.int; simpl. lia. Qed.

Lemma digit_value_range (c : ascii) :
  Str.isdecimal c = true -> (0 <= Str.digit_value c <= 9)%Z.
Proof.
  unfold Str.isdecimal, Str.digit_value. intros H.
  apply andb_true_iff in H as [H1 H2].
  apply N.leb_le in H1, H2. lia.
Qed.

End StringFacts.

Section Matcher.

Import Token.

Lemma literal_ignorecase_sound (lit s rest : string) :
  Re.literal_ignorecase lit s = Some rest ->
  exists k, s = k ++ rest /\ Str.lower k = Str.lower lit.
Proof.
  revert s. induction lit as [|p lit IH]; intros s H; simpl in H.
  - exists "". now inversion H.
  - destruct s as [|c s]; [discriminate|].
    destruct (Ascii.eqb (Str.lower_char c) (Str.lower_char p)) eqn:E;
      [|discriminate].
    apply Ascii.eqb_eq in E. destruct (IH _ H) as (k & -> & Hk).
    exists (String c k). simpl. now rewrite E, Hk.
Qed.

Lemma literal_ignorecase_complete (lit k rest : string) :
  Str.lower k = Str.lower lit ->
  Re.literal_ignorecase lit (k ++ rest) = Some rest.
Proof.
  revert k. induction lit as [|p lit IH]; intros k H.
  - destruct k; [reflexivity | discriminate].
  - destruct k as [|c k]; [discriminate|]. simpl in H. inversion H as [[Hc Hk]].
    simpl. rewrite Hc, Ascii.eqb_refl. now apply IH.
Qed.

Lemma keyword_sound (s rest : string) :
  Re.keyword s = Some rest -> exists k, s = k ++ rest /\ is_keyword k.
Proof.
  unfold Re.keyword, is_keyword. intros H.
  destruct (Re.literal_ignorecase "HTTP" s) as [r|] eqn:E.
  - inversion H; subst. apply literal_ignorecase_sound in E as (k & ? & ?).
    exists k. auto.
  - apply literal_ignorecase_sound in H as (k & ? & ?). exists k. auto.
Qed.

Lemma keyword_complete (k rest : string) :
  is_keyword k -> Re.keyword (k ++ rest) = Some rest.
Proof.
  unfold Re.keyword. intros [H|H].
  - now rewrite (literal_ignorecase_complete "HTTP" k rest H).
  - destruct (Re.literal_ignorecase "HTTP" (k ++ rest)) as [r|] eqn:E.
    + exfalso. apply literal_ignorecase_sound in E as (k' & E1 & E2).
      destruct k as [|c k]; [discriminate|].
      destruct k' as [|c' k']; [discriminate|].
      simpl in *. inversion E1; subst.
      injection H as Hs _. injection E2 as Hh _.
      rewrite Hs in Hh. discriminate.
    + now apply literal_ignorecase_complete.
Qed.

Lemma skip_spaces_app (w rest : string) (c : ascii) :
  Str.all Str.isspace w = true -> Str.isspace c = false ->
  Re.skip_spaces (w ++ String c rest) = String c rest.
Proof.
  intros Hw Hc. induction w as [|x w IH]; simpl in *.
  - now rewrite Hc.
  - apply andb_true_iff in Hw as [Hx Hw]. rewrite Hx. now apply IH.
Qed.

Lemma skip_spaces_sound (s : string) :
  exists w, s = w ++ Re.skip_spaces s /\ Str.all Str.isspace w = true.
Proof.
  induction s as [|c s (w & Hw & Hs)]; simpl.
  - now exists "".
  - destruct (Str.isspace c) eqn:E.
    + exists (String c w). simpl. rewrite E, Hs. split; [congruence | reflexivity].
    + now exists "".
Qed.

Lemma spaces1_sound (s rest : string) :
  Re.spaces1 s = Some rest ->
  exists w, s = w ++ rest /\ w <> "" /\ Str.all Str.isspace w = true.
Proof.
  destruct s as [|c s]; simpl; [discriminate|].
  destruct (Str.isspace c) eqn:E; [|discriminate].
  intros H; inversion H; subst.
  destruct (skip_spaces_sound s) as (w & Hw & Hs).
  exists (String c w). simpl. rewrite E, Hs. repeat split; congruence.
Qed.

Lemma spaces1_complete (w rest : string) (c : ascii) :
  w <> "" -> Str.all Str.isspace w = true -> Str.isspace c = false ->
  Re.spaces1 (w ++ String c rest) = Some (String c rest).
Proof.
  intros Hne Hw Hc. destruct w as [|x w]; [congruence|]. simpl in *.
  apply andb_true_iff in Hw as [Hx Hw]. rewrite Hx.
  now rewrite skip_spaces_app.
Qed.

(** The matcher at the head of [s] finds exactly the token that starts
    there. *)
Lemma match_here_sound (s g : string) :
  Re.match_here s = Some g -> occurs_at s 0 (Str.int g).
Proof.
  unfold Re.match_here. intros H.
  destruct (Re.keyword s) as [r1|] eqn:E1; [|discriminate].
  destruct (Re.spaces1 r1) as [r2|] eqn:E2; [|discriminate].
  apply keyword_sound in E1 as (k & -> & Hk).
  apply spaces1_sound in E2 as (w & -> & Hne & Hw).
  destruct r2 as [|a [|b [|c post]]]; simpl in H; try discriminate.
  destruct (Str.isdecimal a) eqn:Ha; [|discriminate].
  destruct (Str.isdecimal b) eqn:Hb; [|discriminate].
  destruct (Str.isdecimal c) eqn:Hc; [|discriminate].
  simpl in H. inversion H; subst.
  exists "", (k ++ w ++ String a (String b (String c ""))), post.
  split; [|split; [reflexivity|]].
  - simpl. now rewrite !app_assoc_str.
  - exists k, w, a, b, c. rewrite int_digits3. tauto.
Qed.

Lemma match_here_complete (s : string) (n : Z) :
  occurs_at s 0 n -> exists g, Re.match_here s = Some g /\ Str.int g = n.
Proof.
  intros (pre & t & post & -> & Hpre & k & w & a & b & c & -> & Hk & Hne & Hw
          & Ha & Hb & Hc & ->).
  destruct pre; [|discriminate]. simpl.
  exists (String a (String b (String c ""))). rewrite int_digits3.
  split; [|reflexivity].
  unfold Re.match_here. rewrite !app_assoc_str.
  rewrite (keyword_complete _ _ Hk). simpl.
  rewrite (spaces1_complete _ _ _ Hne Hw (digit_not_space _ Ha)).
  simpl. now rewrite Ha, Hb, Hc.
Qed.

Lemma occurs_at_tail (c : ascii) (s : string) (i : nat) (n : Z) :
  occurs_at (String c s) (S i) n <-> occurs_at s i n.
Proof.
  split.
  - intros (pre & t & post & E & Hl & Ht).
    destruct pre as [|x pre]; [discriminate|]. simpl in *.
    inversion E; subst. exists pre, t, post. auto.
  - intros (pre & t & post & -> & Hl & Ht).
    exists (String c pre), t, post. simpl. auto.
Qed.

Lemma occurs_at_empty (i : nat) (n : Z) : ~ occurs_at "" i n.
Proof.
  intros (pre & t & post & E & _ & k & w & a & b & c & -> & _).
  destruct pre; [|discriminate]. destruct k; [|discriminate].
  destruct w; discriminate.
Qed.

Lemma search_first (s : string) (i : nat) (n : Z) :
  first_at s i n -> exists g, Re.search s = Some g /\ Str.int g = n.
Proof.
  revert i. induction s as [|c s IH]; intros i [Ho Hfirst].
  - now apply occurs_at_empty in Ho.
  - destruct i as [|i].
    + apply match_here_complete in Ho as (g & Hg & Hn).
      exists g. simpl. now rewrite Hg.
    + destruct (Re.match_here (String c s)) as [g|] eqn:E.
      * apply match_here_sound in E. exfalso. apply (Hfirst 0 _ ltac:(lia) E).
      * simpl Re.search. rewrite E. apply (IH i). split.
        -- now apply occurs_at_tail in Ho.
        -- intros j m Hj Hm. apply (Hfirst (S j) m ltac:(lia)).
           now apply occurs_at_tail.
Qed.

Lemma search_sound (s g : string) :
  Re.search s = Some g -> exists i, first_at s i (Str.int g).
Proof.
  induction s as [|c s IH]; simpl.
  - discriminate.
  - destruct (Re.match_here (String c s)) as [g'|] eqn:E.
    + intros H; inversion H; subst. exists 0. split.
      * now apply match_here_sound.
      * intros j m Hj; lia.
    + intros H. destruct (IH H) as (i & Ho & Hfirst). exists (S i). split.
      * now apply occurs_at_tail.
      * intros [|j] m Hj Hm.
        -- apply match_here_complete in Hm as (g' & Hg' & _). congruence.
        -- apply occurs_at_tail in Hm. apply (Hfirst j m ltac:(lia) Hm).
Qed.

Lemma search_none (s : string) :
  Re.search s = None <-> forall i n, ~ occurs_at s i n.
Proof.
  split.
  - induction s as [|c s IH]; intros H i n Ho.
    + now apply occurs_at_empty in Ho.
    + simpl in H. destruct (Re.match_here (String c s)) eqn:E; [discriminate|].
      destruct i as [|i].
      * apply match_here_complete in Ho as (g & Hg & _). congruence.
      * apply occurs_at_tail in Ho. apply (IH H i n Ho).
  - intros H. destruct (Re.search s) as [g|] eqn:E; [|reflexivity].
    apply search_sound in E as (i & Ho & _). now apply H in Ho.
Qed.

End Matcher.

(** ** Claims about [extract_status_from_error] *)

(** The number of a token is a three-digit number. *)
Lemma token_number_range (s : string) (i : nat) (n : Z) :
  Token.occurs_at s i n -> (0 <= n <= 999)%Z.
Proof.
  intros (_ & _ & _ & _ & _ & _ & _ & a & b & c & _ & _ & _ & _
          & Ha & Hb & Hc & ->).
  apply digit_value_range in Ha, Hb, Hc. lia.
Qed.

Lemma extract_first (s : string) (i : nat) (n : Z) :
  Token.first_at s i n -> extract_status_from_error s = n.
Proof.
  intros H. apply search_first in H as (g & Hg & Hn).
  unfold extract_status_from_error. now rewrite Hg.
Qed.

Lemma extract_no_token (s : string) :
  (forall i n, ~ Token.occurs_at s i n) -> extract_status_from_error s = 0%Z.
Proof.
  intros H. apply search_none in H.
  unfold extract_status_from_error. now rewrite H.
Qed.

Lemma occurs_in_context (pre k w post : string) (a b c : ascii) :
  Token.is_keyword k -> w <> "" -> Str.all Str.isspace w = true ->
  Str.isdecimal a = true -> Str.isdecimal b = true ->
  Str.isdecimal c = true ->
  Token.occurs_at
    (pre ++ (k ++ w ++ String a (String b (String c ""))) ++ post)
    (String.length pre)
    (100 * Str.digit_value a + 10 * Str.digit_value b + Str.digit_value c).
Proof.
  intros Hk Hne Hw Ha Hb Hc.
  exists pre, (k ++ w ++ String a (String b (String c ""))), post.
  split; [reflexivity | split; [reflexivity|]].
  exists k, w, a, b, c. tauto.
Qed.

(** C3: for every error message, [extract_status_from_error] returns the
    number spelled by the three digits of the first token of the form
    keyword, whitespace, three digits, where the keyword is HTTP or status
    in any case; a message whose first such token is "HTTP 403" yields 403,
    one whose first token is "status 502" yields 502, and a message with no
    such token yields 0. *)
Theorem extract_status_first_token (s : string) :
  (forall i n, Token.first_at s i n -> extract_status_from_error s = n) /\
  (forall pre post,
      s = pre ++ "HTTP 403" ++ post ->
      (forall j m, j < String.length pre -> ~ Token.occurs_at s j m) ->
      extract_status_from_error s = 403%Z) /\
  (forall pre post,
      s = pre ++ "status 502" ++ post ->
      (forall j m, j < String.length pre -> ~ Token.occurs_at s j m) ->
      extract_status_from_error s = 502%Z) /\
  ((forall i n, ~ Token.occurs_at s i n) ->
   extract_status_from_error s = 0%Z).
Proof.
  split; [|split; [|split]].
  - apply extract_first.
  - intros pre post -> Hfirst.
    apply (extract_first _ (String.length pre)). split; [|exact Hfirst].
    apply (occurs_in_context pre "HTTP" " " post "4" "0" "3");
      solve [reflexivity | discriminate | now left].
  - intros pre post -> Hfirst.
    apply (extract_first _ (String.length pre)). split; [|exact Hfirst].
    apply (occurs_in_context pre "status" " " post "5" "0" "2");
      solve [reflexivity | discriminate | now right].
  - apply extract_no_token.
Qed.

Lemma extract_status_first_token_witness :
  extract_status_from_error "Proxy Authentication: HTTP  407 Required" = 407%Z /\
  extract_status_from_error "HTTP 403 Forbidden" = 403%Z /\
  extract_status_from_error "status 502" = 502%Z /\
  extract_status_from_error "Read timed out. (read timeout=5)" = 0%Z.
Proof.
  split; [|split; [|split]].
  - destruct (search_sound "Proxy Authentication: HTTP  407 Required" "407"
                eq_refl) as [i Hi].
    apply (proj1 (extract_status_first_token _) i 407%Z Hi).
  - apply (proj1 (proj2 (extract_status_first_token _)) "" " Forbidden").
    + reflexivity.
    + simpl. lia.
  - apply (proj1 (proj2 (proj2 (extract_status_first_token _))) "" "").
    + reflexivity.
    + simpl. lia.
  - apply (proj2 (proj2 (proj2 (extract_status_first_token _)))).
    apply search_none. reflexivity.
Defined.

(** ** Claims about [test_proxy] *)

Section TestProxy.

Variable requests_get : network.
Variable row : gmap string (option string).
Variable proxy_field : string.
Variables location_field protocol_field : option string.

(** Once the proxy URL is built, [test_proxy] returns what the [finally]
    block builds from the locals, whatever is pending. *)
Lemma test_proxy_finally (proxy_url : option string) :
  proxy_url_of row proxy_field protocol_field = Return proxy_url ->
  test_proxy requests_get row proxy_field location_field protocol_field =
  Return (finally_block row location_field proxy_url
            (try_except requests_get proxy_url initial_locals).1).
Proof.
  intros H. unfold test_proxy. rewrite H. simpl.
  now destruct (try_except requests_get proxy_url initial_locals).
Qed.

Lemma proxy_url_of_plain (addr : option string) :
  row !! proxy_field = Some addr ->
  protocol_field = None \/ protocol_field = Some "" ->
  proxy_url_of row proxy_field protocol_field = Return addr.
Proof.
  intros Ha [-> | ->]; unfold proxy_url_of, Py.getitem; now rewrite Ha.
Qed.

Lemma proxy_url_of_protocol (addr : option string) (pf v : string) :
  row !! proxy_field = Some addr ->
  protocol_field = Some pf -> Str.truthy pf = true ->
  row !! pf = Some (Some v) ->
  proxy_url_of row proxy_field protocol_field =
  Return (Some ((if String.eqb (Str.lower v) "yes" then "https" else "http")
                ++ "://" ++ format_of addr)).
Proof.
  intros Ha -> Hpf Hv. unfold proxy_url_of, Py.getitem.
  rewrite Ha. simpl. rewrite Hpf, Hv. simpl. rewrite ?Ha. reflexivity.
Qed.

End TestProxy.

Lemma lower_char_y (c : ascii) :
  Str.lower_char c = "y"%char -> c = "y"%char \/ c = "Y"%char.
Proof.
  destruct c as [[] [] [] [] [] [] [] []]; vm_compute; intros H;
    solve [discriminate | auto].
Qed.

Lemma lower_char_e (c : ascii) :
  Str.lower_char c = "e"%char -> c = "e"%char \/ c = "E"%char.
Proof.
  destruct c as [[] [] [] [] [] [] [] []]; vm_compute; intros H;
    solve [discriminate | auto].
Qed.

Lemma lower_char_s (c : ascii) :
  Str.lower_char c = "s"%char -> c = "s"%char \/ c = "S"%char.
Proof.
  destruct c as [[] [] [] [] [] [] [] []]; vm_compute; intros H;
    solve [discriminate | auto].
Qed.

(** The values that select [https]: the word yes in any of its eight
    capitalisations. *)
Lemma lower_yes (v : string) :
  Str.lower v = "yes" <->
  exists a b c,
    v = String a (String b (String c "")) /\
    (a = "y" \/ a = "Y")%char /\ (b = "e" \/ b = "E")%char /\
    (c = "s" \/ c = "S")%char.
Proof.
  split.
  - destruct v as [|a [|b [|c [|d v]]]]; try discriminate.
    simpl. intros H. injection H as Ha Hb Hc.
    exists a, b, c. split; [reflexivity|].
    auto using lower_char_y, lower_char_e, lower_char_s.
  - intros (a & b & c & -> & [-> | ->] & [-> | ->] & [-> | ->]); reflexivity.
Qed.



(** ** Claims about the limit of [process_proxies] *)

Lemma slice_to_positive {A} (l : list A) (n : Z) :
  (0 < n)%Z ->
  Py.slice_to l n = take (Z.to_nat (Z.min n (Z.of_nat (length l)))) l.
Proof.
  intros Hn. unfold Py.slice_to.
  destruct (Z.leb_spec 0 n) as [_|]; [|lia].
  destruct (Z.min_spec n (Z.of_nat (length l))) as [[Hlt ->] | [Hge ->]].
  - reflexivity.
  - rewrite Nat2Z.id, firstn_all. apply take_ge. lia.
Qed.

(** C5, as the code has it: for every limit N greater than zero, the rows
    submitted to the pool are exactly the first min(N, number of rows) rows
    read from the file, in file order; with a limit of 20 and 50 rows they
    are the first 20. *)
Theorem limit_truncation (rows : list (gmap string (option string))) (n : Z) :
  (0 < n)%Z ->
  submitted rows (Some n)
  = take (Z.to_nat (Z.min n (Z.of_nat (length rows)))) rows /\
  Z.of_nat (length (submitted rows (Some n)))
  = Z.min n (Z.of_nat (length rows)) /\
  (forall i, (Z.of_nat i < Z.min n (Z.of_nat (length rows)))%Z ->
             submitted rows (Some n) !! i = rows !! i) /\
  (n = 20%Z -> length rows = 50 -> submitted rows (Some n) = take 20 rows).
Proof.
  intros Hn. unfold submitted.
  destruct (Z.eqb_spec n 0) as [|_]; [lia|]. simpl.
  rewrite slice_to_positive by assumption.
  split; [reflexivity|]. split; [|split].
  - rewrite length_take. lia.
  - intros i Hi. apply lookup_take_lt. lia.
  - intros -> ->. reflexivity.
Qed.

Lemma limit_truncation_witness :
  submitted (replicate 50 (free_proxy_row "yes")) (Some 20%Z)
  = take 20 (replicate 50 (free_proxy_row "yes")).
Proof.
  apply (limit_truncation (replicate 50 (free_proxy_row "yes")) 20).
  - lia.
  - reflexivity.
  - reflexivity.
Defined.

(** C5 as stated fails: a limit of zero, which is a provided limit, does
    not submit the first min(0, number of rows) = 0 rows. *)
Lemma limit_zero_not_truncated :
  ~ (forall (rows : list (gmap string (option string))) (n : Z),
        submitted rows (Some n)
        = take (Z.to_nat (Z.min n (Z.of_nat (length rows)))) rows).
Proof.
  intros H. specialize (H [free_proxy_row "yes"] 0%Z). discriminate H.
Qed.

(** C8: a limit of zero is taken as no limit: every row read is submitted,
    and the batch runs as it does without a limit. *)
Theorem limit_zero_submits_all (rows : list (gmap string (option string))) :
  submitted rows (Some 0%Z) = rows /\
  submitted rows (Some 0%Z) = submitted rows None /\
  forall net completed proxy_field location_field protocol_field,
    process_proxies net completed rows proxy_field location_field
                    protocol_field (Some 0%Z)
    = process_proxies net completed rows proxy_field location_field
                      protocol_field None.
Proof. repeat split. Qed.

(** ** The [try] statement of [test_proxy] *)

Section TryStatement.

Variable requests_get : network.
Variable proxy_url : option string.

(** The body of [try] completes exactly when the request returns a response
    whose body decodes to a JSON object. *)
Lemma try_body_completes (l : locals) (response : Response)
    (d : gmap string value) :
  requests_get (request_through proxy_url) = Return response ->
  json response = Return (VDict d) ->
  try_body requests_get proxy_url l
  = (set_status_code (status_code response)
       (set_real_location (default (VStr "Unknown") (d !! "timezone")) l),
     None).
Proof.
  intros Hget Hjson. unfold try_body. rewrite Hget, Hjson. reflexivity.
Qed.

(** When the body raises, it has assigned nothing. *)
Lemma try_body_raises (l l' : locals) (e : exception) :
  try_body requests_get proxy_url l = (l', Some e) -> l' = l.
Proof.
  unfold try_body.
  destruct (requests_get (request_through proxy_url)) as [response|e'];
    [|now intros [= <- _]].
  destruct (json response) as [j|e']; [|now intros [= <- _]].
  simpl. destruct (Py.get j "timezone" (VStr "Unknown"));
    now intros [= <- _].
Qed.

(** No [except] clause assigns [real_location]. *)
Lemma except_clauses_real_location (e : exception) (l : locals) :
  v_real_location (except_clauses e l).1 = v_real_location l.
Proof.
  destruct e as [k|m|isa msg [c|]]; simpl; try reflexivity;
    repeat (match goal with |- context [if ?b then _ else _] => destruct b end);
    reflexivity.
Qed.

Lemma try_except_completes (l : locals) (response : Response)
    (d : gmap string value) :
  requests_get (request_through proxy_url) = Return response ->
  json response = Return (VDict d) ->
  try_except requests_get proxy_url l
  = (set_status_code (status_code response)
       (set_real_location (default (VStr "Unknown") (d !! "timezone")) l),
     None).
Proof.
  intros Hget Hjson. unfold try_except.
  now rewrite (try_body_completes l response d Hget Hjson).
Qed.

Lemma try_except_raises (l l' : locals) (e : exception) :
  try_body requests_get proxy_url l = (l', Some e) ->
  try_except requests_get proxy_url l = except_clauses e l.
Proof.
  intros H. unfold try_except. rewrite H.
  now rewrite (try_body_raises _ _ _ H).
Qed.

End TryStatement.

(** ** Claims about the result of [test_proxy] *)

(** C9: when the request succeeds and the [timezone] field of the response
    JSON is present with a falsy value, such as the empty string, the
    [real_location] of the result is "Failed" and not that value, although
    [error] is empty. *)
Theorem falsy_timezone_reported_failed (requests_get : network)
    (row : gmap string (option string)) (proxy_field : string)
    (location_field protocol_field : option string)
    (proxy_url : option string) (response : Response)
    (d : gmap string value)
    (tz : value) :
  proxy_url_of row proxy_field protocol_field = Return proxy_url ->
  requests_get (request_through proxy_url) = Return response ->
  json response = Return (VDict d) ->
  d !! "timezone" = Some tz ->
  Py.truthy tz = false ->
  exists r,
    test_proxy requests_get row proxy_field location_field protocol_field
    = Return r /\
    real_location r = VStr "Failed" /\
    error r = "" /\
    status r = normalized (status_code response).
Proof.
  intros Hurl Hget Hjson Htz Hfalsy. eexists. split.
  - apply test_proxy_finally; eassumption.
  - rewrite (try_except_completes _ _ _ _ _ Hget Hjson), Htz. simpl.
    now rewrite Hfalsy.
Qed.

Lemma falsy_timezone_reported_failed_witness :
  exists r,
    test_proxy (answers 200 (Return (VDict {["timezone" := VStr ""]})))
               (free_proxy_row "yes") "IP Address" None None
    = Return r /\
    real_location r = VStr "Failed" /\
    error r = "" /\
    status r = 200%Z.
Proof.
  apply (falsy_timezone_reported_failed
           (answers 200 (Return (VDict {["timezone" := VStr ""]})))
           (free_proxy_row "yes") "IP Address" None None (Some "1.2.3.4:8080")
           {| status_code := 200;
              json := Return (VDict {["timezone" := VStr ""]}) |}
           {["timezone" := VStr ""]} (VStr ""));
    reflexivity.
Defined.

(** C7, as the code has it: when the request succeeds, the status of the
    result is the status code of the response if that is at least 200 and 0
    otherwise, and [real_location] is the [timezone] field of the response
    JSON when that field is present with a truthy value and "Unknown" when
    it is absent; when the request fails, [real_location] is "Failed". *)
Theorem success_and_failure_fields (requests_get : network)
    (row : gmap string (option string)) (proxy_field : string)
    (location_field protocol_field : option string)
    (proxy_url : option string) :
  proxy_url_of row proxy_field protocol_field = Return proxy_url ->
  (forall response d,
      requests_get (request_through proxy_url) = Return response ->
      json response = Return (VDict d) ->
      exists r,
        test_proxy requests_get row proxy_field location_field protocol_field
        = Return r /\
        status r = normalized (status_code response) /\
        ((200 <= status_code response)%Z ->
         status r = status_code response) /\
        (d !! "timezone" = None -> real_location r = VStr "Unknown") /\
        (forall tz, d !! "timezone" = Some tz -> Py.truthy tz = true ->
                    real_location r = tz)) /\
  (forall l e,
      try_body requests_get proxy_url initial_locals = (l, Some e) ->
      exists r,
        test_proxy requests_get row proxy_field location_field protocol_field
        = Return r /\
        real_location r = VStr "Failed").
Proof.
  intros Hurl. split.
  - intros response d Hget Hjson. eexists. split.
    + apply test_proxy_finally; eassumption.
    + rewrite (try_except_completes _ _ _ _ _ Hget Hjson). simpl.
      split; [reflexivity|]. split; [|split].
      * unfold normalized. intros Hc.
        destruct (Z.ltb_spec (status_code response) 200); [lia | reflexivity].
      * now intros ->.
      * intros tz -> Htz. simpl. now rewrite Htz.
  - intros l e Hbody. eexists. split.
    + apply test_proxy_finally; eassumption.
    + rewrite (try_except_raises _ _ _ _ _ Hbody). simpl.
      now rewrite except_clauses_real_location.
Qed.

Lemma success_and_failure_fields_witness :
  (exists r,
      test_proxy (answers 200 (Return (VDict {["timezone" := VStr "UTC"]})))
                 (free_proxy_row "yes") "IP Address" None None
      = Return r /\
      status r = 200%Z /\ real_location r = VStr "UTC") /\
  (exists r,
      test_proxy unreachable (free_proxy_row "yes") "IP Address" None None
      = Return r /\
      real_location r = VStr "Failed").
Proof.
  split.
  - destruct (success_and_failure_fields
                (answers 200 (Return (VDict {["timezone" := VStr "UTC"]})))
                (free_proxy_row "yes") "IP Address" None None (Some "1.2.3.4:8080")
                eq_refl) as [H _].
    destruct (H {| status_code := 200;
                   json := Return (VDict {["timezone" := VStr "UTC"]}) |}
                {["timezone" := VStr "UTC"]} eq_refl eq_refl)
      as (r & Hr & _ & Hs & _ & Htz).
    exists r. split; [exact Hr|]. split.
    + apply Hs. simpl. lia.
    + apply Htz; reflexivity.
  - destruct (success_and_failure_fields unreachable
                (free_proxy_row "yes") "IP Address" None None (Some "1.2.3.4:8080")
                eq_refl) as [_ H].
    eapply H. reflexivity.
Defined.

(** C7 as stated fails on both fields of a successful request: a response
    with status 101 gives status 0, and a response whose [timezone] is the
    empty string gives [real_location] "Failed". *)
Lemma success_fields_not_verbatim :
  ~ (forall (requests_get : network) (row : gmap string (option string))
            (proxy_field : string) (proxy_url : option string)
            (response : Response) (d : gmap string value) (r : ProxyResult),
        proxy_url_of row proxy_field None = Return proxy_url ->
        requests_get (request_through proxy_url) = Return response ->
        json response = Return (VDict d) ->
        test_proxy requests_get row proxy_field None None = Return r ->
        status r = status_code response) /\
  ~ (forall (requests_get : network) (row : gmap string (option string))
            (proxy_field : string) (proxy_url : option string)
            (response : Response) (d : gmap string value) (r : ProxyResult),
        proxy_url_of row proxy_field None = Return proxy_url ->
        requests_get (request_through proxy_url) = Return response ->
        json response = Return (VDict d) ->
        test_proxy requests_get row proxy_field None None = Return r ->
        real_location r = default (VStr "Unknown") (d !! "timezone")).
Proof.
  split; intros H.
  - specialize (H (answers 101 (Return (VDict {["timezone" := VStr "UTC"]})))
                  (free_proxy_row "yes") "IP Address" (Some "1.2.3.4:8080")
                  {| status_code := 101;
                     json := Return (VDict {["timezone" := VStr "UTC"]}) |}
                  {["timezone" := VStr "UTC"]} _
                  eq_refl eq_refl eq_refl eq_refl).
    discriminate H.
  - specialize (H (answers 200 (Return (VDict {["timezone" := VStr ""]})))
                  (free_proxy_row "yes") "IP Address" (Some "1.2.3.4:8080")
                  {| status_code := 200;
                     json := Return (VDict {["timezone" := VStr ""]}) |}
                  {["timezone" := VStr ""]} _
                  eq_refl eq_refl eq_refl eq_refl).
    vm_compute in H. discriminate H.
Qed.

(** C1 fails on the code: a proxy that answers with status 403 and a body
    that is not JSON is a response with a status of at least 200, and the
    result has status 0, because [status_code] is assigned after the body
    is decoded. *)
Theorem status_zero_despite_response :
  test_proxy (answers 403 (Raise json_decode_error))
             (free_proxy_row "yes") "IP Address" (Some "Country") None
  = Return {| proxy := Some "1.2.3.4:8080";
              status := 0;
              location := Some "Iceland";
              real_location := VStr "Failed";
              error := "RequestException: Expecting value: line 1 column 1 (char 0)" |}.
Proof. reflexivity. Qed.

(** The same for every status code and every row: the status of a response
    whose body does not decode is lost. *)
Lemma status_lost_when_body_not_json (row : gmap string (option string))
    (proxy_field : string) (proxy_url : option string)
    (location_field protocol_field : option string)
    (code : Z) :
  proxy_url_of row proxy_field protocol_field = Return proxy_url ->
  exists r,
    test_proxy (answers code (Raise json_decode_error)) row proxy_field
               location_field protocol_field = Return r /\
    status r = 0%Z.
Proof.
  intros Hurl. eexists. split.
  - apply test_proxy_finally; eassumption.
  - reflexivity.
Qed.

(** C2 as stated fails: a row without the proxy column makes [test_proxy]
    raise [KeyError]. *)
Lemma test_proxy_can_raise :
  ~ (forall (requests_get : network) (row : gmap string (option string))
            (proxy_field : string)
            (location_field protocol_field : option string),
        exists r,
          test_proxy requests_get row proxy_field location_field
                     protocol_field = Return r).
Proof.
  intros H.
  destruct (H unreachable (free_proxy_row "yes") "proxy" None None)
    as [r Hr].
  discriminate Hr.
Qed.

(** C2, as the code has it: for every row that has the proxy column, and a
    string in the protocol column when a protocol field is configured,
    [test_proxy] returns a result whatever the request does; each of the
    five kinds of request error is encoded in the [error] and [status] of
    that result, an HTTP error through the status of the response it
    carries. *)
Theorem request_errors_captured (requests_get : network)
    (row : gmap string (option string)) (proxy_field : string)
    (location_field protocol_field : option string) :
  is_Some (row !! proxy_field) ->
  (forall pf, protocol_field = Some pf -> Str.truthy pf = true ->
              exists v, row !! pf = Some (Some v)) ->
  exists proxy_url r,
    proxy_url_of row proxy_field protocol_field = Return proxy_url /\
    test_proxy requests_get row proxy_field location_field protocol_field
    = Return r /\
    forall l isa msg response,
      try_body requests_get proxy_url initial_locals
      = (l, Some (Raised isa msg response)) ->
      (isa HTTPError = true -> forall c, response = Some c ->
       error r = "HTTPError: " ++ msg /\ status r = normalized c) /\
      (isa HTTPError = false -> isa ProxyError = true ->
       error r = "ProxyError: " ++ msg /\
       status r = normalized (extract_status_from_error msg)) /\
      (isa HTTPError = false -> isa ProxyError = false ->
       isa ConnectionError = true ->
       error r = "ConnectionError: " ++ msg /\
       status r = normalized (extract_status_from_error msg)) /\
      (isa HTTPError = false -> isa ProxyError = false ->
       isa ConnectionError = false -> isa Timeout = true ->
       error r = "TimeoutError: " ++ msg /\ status r = 0%Z) /\
      (isa HTTPError = false -> isa ProxyError = false ->
       isa ConnectionError = false -> isa Timeout = false ->
       isa RequestException = true ->
       error r = "RequestException: " ++ msg /\ status r = 0%Z).
Proof.
  intros [addr Ha] Hprotocol.
  assert (exists proxy_url,
             proxy_url_of row proxy_field protocol_field = Return proxy_url)
    as [proxy_url Hurl].
  { destruct protocol_field as [pf|] eqn:Hp.
    - destruct (Str.truthy pf) eqn:Hpf.
      + destruct (Hprotocol pf eq_refl Hpf) as [v Hv].
        eexists. eapply proxy_url_of_protocol; eauto.
      + destruct pf; [|discriminate].
        eexists. apply proxy_url_of_plain; eauto.
    - eexists. apply proxy_url_of_plain; eauto. }
  exists proxy_url. eexists. split; [exact Hurl|]. split.
  - apply test_proxy_finally; eassumption.
  - intros l isa msg response Hbody.
    rewrite (try_except_raises _ _ _ _ _ Hbody).
    repeat split.
    all: intros; subst; simpl;
      repeat match goal with H : @eq bool _ _ |- _ => rewrite H; clear H end;
      reflexivity.
Qed.

Lemma request_errors_captured_witness :
  exists r,
    test_proxy unreachable (free_proxy_row "yes") "IP Address" None
               (Some "Https")
    = Return r /\
    error r = "ConnectionError: Max retries exceeded with url: /json" /\
    status r = 0%Z.
Proof.
  destruct (request_errors_captured unreachable (free_proxy_row "yes")
              "IP Address" None (Some "Https"))
    as (proxy_url & r & Hurl & Hr & Hkinds).
  - exists (Some "1.2.3.4:8080"). reflexivity.
  - intros pf [= <-] _. exists "yes". reflexivity.
  - exists r. split; [exact Hr|].
    injection Hurl as <-.
    destruct (Hkinds initial_locals _ _ _ eq_refl)
      as (_ & _ & Hconnection & _).
    apply Hconnection; reflexivity.
Defined.

(** C10 as stated fails: an exception also leaves [test_proxy] for a row
    that has both columns, when the protocol column holds [None], as it
    does for a record shorter than the header. *)
Lemma escape_without_missing_column :
  ~ (forall (requests_get : network) (row : gmap string (option string))
            (proxy_field : string)
            (location_field protocol_field : option string) (e : exception),
        test_proxy requests_get row proxy_field location_field protocol_field
        = Raise e ->
        row !! proxy_field = None \/
        exists pf, protocol_field = Some pf /\ row !! pf = None).
Proof.
  intros H.
  destruct (H unreachable short_record_row "IP Address" None (Some "Https")
              (AttributeError "'NoneType' object has no attribute 'lower'")
              eq_refl) as [Hp | (pf & [= <-] & Hpf)]; discriminate.
Qed.

(** C10, as the code has it: [test_proxy] returns from its [finally] block,
    so an exception raised in the body of [try] or in an [except] clause,
    whether or not a clause names it, is dropped and a result is returned
    all the same, with what the clauses recorded; the exceptions that leave
    [test_proxy] are those raised before the [try] statement: a [KeyError]
    for a proxy or protocol column that the row lacks, and an
    [AttributeError] for a protocol column that holds [None]. *)
Theorem finally_return_drops_exceptions (requests_get : network)
    (row : gmap string (option string)) (proxy_field : string)
    (location_field protocol_field : option string) :
  (forall proxy_url,
      proxy_url_of row proxy_field protocol_field = Return proxy_url ->
      let test :=
        test_proxy requests_get row proxy_field location_field
                   protocol_field in
      let silent := nothing_recorded row location_field proxy_url in
      (exists r, test = Return r) /\
      (forall e,
          requests_get (request_through proxy_url) = Raise e ->
          (forall c, Py.isinstance e c = false) ->
          test = Return silent) /\
      (forall response e,
          requests_get (request_through proxy_url) = Return response ->
          json response = Raise e ->
          (forall c, Py.isinstance e c = false) ->
          test = Return silent) /\
      (forall response body,
          requests_get (request_through proxy_url) = Return response ->
          json response = Return body ->
          (forall d, body <> VDict d) ->
          test = Return silent) /\
      (forall isa msg,
          requests_get (request_through proxy_url)
          = Raise (Raised isa msg None) ->
          isa HTTPError = true ->
          test = Return silent) /\
      (forall isa msg response,
          requests_get (request_through proxy_url)
          = Raise (Raised isa msg response) ->
          isa HTTPError = false -> isa ProxyError = false ->
          isa ConnectionError = false -> isa Timeout = false ->
          isa RequestException = true ->
          test = Return {| proxy := proxy_url;
                           status := 0;
                           location := location_of row location_field;
                           real_location := VStr "Failed";
                           error := "RequestException: " ++ msg |})) /\
  (forall e,
      test_proxy requests_get row proxy_field location_field protocol_field
      = Raise e
      <->
      (row !! proxy_field = None /\ e = KeyError proxy_field) \/
      (exists pf,
          protocol_field = Some pf /\ Str.truthy pf = true /\
          is_Some (row !! proxy_field) /\
          ((row !! pf = None /\ e = KeyError pf) \/
           (row !! pf = Some None /\
            e = AttributeError
                  "'NoneType' object has no attribute 'lower'")))).
Proof.
  split.
  - intros proxy_url Hurl test silent. unfold test, silent.
    rewrite (test_proxy_finally _ _ _ _ _ _ Hurl).
    unfold nothing_recorded, finally_block, try_except, try_body.
    split; [eauto|]. split; [|split; [|split; [|split]]].
    + intros e Hget Hno. rewrite Hget.
      destruct e as [k|m|isa msg response]; try reflexivity.
      simpl. pose proof (Hno HTTPError) as H1.
      pose proof (Hno ProxyError) as H2.
      pose proof (Hno ConnectionError) as H3.
      pose proof (Hno Timeout) as H4.
      pose proof (Hno RequestException) as H5.
      simpl in *. now rewrite H1, H2, H3, H4, H5.
    + intros response e Hget Hjson Hno. rewrite Hget, Hjson.
      destruct e as [k|m|isa msg r]; try reflexivity.
      simpl. pose proof (Hno HTTPError) as H1.
      pose proof (Hno ProxyError) as H2.
      pose proof (Hno ConnectionError) as H3.
      pose proof (Hno Timeout) as H4.
      pose proof (Hno RequestException) as H5.
      simpl in *. now rewrite H1, H2, H3, H4, H5.
    + intros response body Hget Hjson Hbody. rewrite Hget, Hjson.
      destruct body; try reflexivity. now destruct (Hbody d).
    + intros isa msg Hget Hisa. rewrite Hget. simpl. now rewrite Hisa.
    + intros isa msg response Hget H1 H2 H3 H4 H5. rewrite Hget. simpl.
      now rewrite H1, H2, H3, H4, H5.
  - intros e. split.
    + unfold test_proxy, proxy_url_of, Py.getitem.
      destruct (row !! proxy_field) as [addr|] eqn:Ha; simpl.
      * destruct protocol_field as [pf|]; simpl.
        -- destruct (Str.truthy pf) eqn:Hpf; simpl.
           ++ destruct (row !! pf) as [[v|]|] eqn:Hv; simpl.
              ** now destruct (try_except requests_get _ initial_locals).
              ** intros [= <-]. right. exists pf. eauto 10.
              ** intros [= <-]. right. exists pf. eauto 10.
           ++ now destruct (try_except requests_get _ initial_locals).
        -- now destruct (try_except requests_get _ initial_locals).
      * intros [= <-]. now left.
    + unfold test_proxy, proxy_url_of, Py.getitem.
      intros [[Ha ->] | (pf & -> & Hpf & [addr Ha] & [[Hv ->] | [Hv ->]])];
        rewrite Ha; simpl; rewrite ?Hpf, ?Hv; reflexivity.
Qed.

Lemma finally_return_drops_exceptions_witness :
  test_proxy (answers 200 (Return (VList []))) (free_proxy_row "yes")
             "IP Address" (Some "Country") None
  = Return {| proxy := Some "1.2.3.4:8080";
              status := 0;
              location := Some "Iceland";
              real_location := VStr "Failed";
              error := "" |} /\
  test_proxy unreachable short_record_row "IP Address" None (Some "Https")
  = Raise (AttributeError "'NoneType' object has no attribute 'lower'").
Proof.
  split.
  - destruct (proj1 (finally_return_drops_exceptions
                       (answers 200 (Return (VList [])))
                       (free_proxy_row "yes") "IP Address" (Some "Country")
                       None)
                (Some "1.2.3.4:8080") eq_refl)
      as (_ & _ & _ & Hbody & _).
    apply (Hbody {| status_code := 200; json := Return (VList []) |}
                 (VList []));
      [reflexivity | reflexivity | discriminate].
  - apply (proj2 (finally_return_drops_exceptions unreachable
                    short_record_row "IP Address" None (Some "Https"))).
    right. exists "Https".
    split; [reflexivity|]. split; [reflexivity|].
    split; [eexists; reflexivity|].
    right. split; reflexivity.
Defined.

(** ** Claims about the rows written by [process_proxies] *)

Local Close Scope string_scope.

Section Collect.

Variable futures : list (result ProxyResult).

Lemma collect_written (out : output) (i : nat) :
  written (collect futures out i)
  = written out ++ option_list (futures !! i ≫= returned).
Proof.
  unfold collect. destruct (futures !! i) as [[r|e]|]; simpl;
    now rewrite ?app_nil_r.
Qed.

Lemma collect_errors (out : output) (i : nat) :
  error_lines (printed (collect futures out i))
  = error_lines (printed out) ++ option_list (futures !! i ≫= raised).
Proof.
  unfold collect, error_lines.
  destruct (futures !! i) as [[r|e]|]; simpl;
    rewrite ?omap_app; simpl; now rewrite ?app_nil_r.
Qed.


Lemma foldl_collect_written (completed : list nat) (out : output) :
  written (foldl (collect futures) out completed)
  = written out ++ omap (fun i => futures !! i ≫= returned) completed.
Proof.
  revert out. induction completed as [|i completed IH]; intros out; simpl.
  - now rewrite app_nil_r.
  - rewrite IH, collect_written, <- app_assoc. f_equal.
    now destruct (futures !! i ≫= returned).
Qed.

Lemma foldl_collect_errors (completed : list nat) (out : output) :
  error_lines (printed (foldl (collect futures) out completed))
  = error_lines (printed out)
    ++ omap (fun i => futures !! i ≫= raised) completed.
Proof.
  revert out. induction completed as [|i completed IH]; intros out; simpl.
  - now rewrite app_nil_r.
  - rewrite IH, collect_errors, <- app_assoc. f_equal.
    now destruct (futures !! i ≫= raised).
Qed.


End Collect.

Lemma omap_lookup_seq_from {A B} (g : A -> option B) (pre l : list A) :
  omap (fun i => (pre ++ l) !! i ≫= g) (seq (length pre) (length l))
  = omap g l.
Proof.
  revert pre. induction l as [|x l IH]; intros pre; [reflexivity|].
  cbn [length seq omap list_omap].
  rewrite list_lookup_middle by reflexivity.
  specialize (IH (pre ++ [x])).
  rewrite <- app_assoc, length_app in IH. cbn [length app] in IH.
  rewrite Nat.add_1_r in IH. rewrite IH. reflexivity.
Qed.

Lemma omap_lookup_seq {A B} (g : A -> option B) (l : list A) :
  omap (fun i => l !! i ≫= g) (seq 0 (length l)) = omap g l.
Proof. apply (omap_lookup_seq_from g [] l). Qed.

Lemma returned_or_raised {A} (l : list (result A)) :
  length (omap returned l) + length (omap raised l) = length l.
Proof.
  induction l as [|[a|e] l IH];
    cbn [omap list_omap returned raised length] in *; lia.
Qed.



(** * Further properties of the code *)

Local Open Scope string_scope.

(** ** [extract_status_from_error]: range, exactness, case *)

(** X1: the status extracted from an error message is a number of at most three
    digits. *)
Theorem extract_status_range (s : string) :
  (0 <= extract_status_from_error s <= 999)%Z.
Proof.
  unfold extract_status_from_error.
  destruct (Re.search s) as [g|] eqn:E; [|lia].
  apply search_sound in E as (i & Ho & _).
  exact (token_number_range _ _ _ Ho).
Qed.

Lemma extract_token_or_zero (s : string) :
  (exists i, Token.first_at s i (extract_status_from_error s)) \/
  ((forall i n, ~ Token.occurs_at s i n) /\
   extract_status_from_error s = 0%Z).
Proof.
  unfold extract_status_from_error.
  destruct (Re.search s) as [g|] eqn:E.
  - left. now apply search_sound.
  - right. split; [now apply search_none | reflexivity].
Qed.

(** X2: the status extracted is never made up: either the message has a first
    token and the status is the number of that token, or the message has no
    token at all and the status is 0; so a status other than 0 is always
    spelled out in the message, after HTTP or status and whitespace. *)
Theorem extract_status_exact (s : string) :
  ((exists i, Token.first_at s i (extract_status_from_error s)) \/
   ((forall i n, ~ Token.occurs_at s i n) /\
    extract_status_from_error s = 0%Z)) /\
  (extract_status_from_error s <> 0%Z ->
   exists i, Token.occurs_at s i (extract_status_from_error s)).
Proof.
  split; [apply extract_token_or_zero|].
  intros Hne. destruct (extract_token_or_zero s) as [[i [Ho _]] | [_ H0]].
  - now exists i.
  - congruence.
Qed.

Lemma extract_status_exact_witness :
  exists i, Token.occurs_at "bad status  502" i
              (extract_status_from_error "bad status  502").
Proof.
  apply (proj2 (extract_status_exact "bad status  502")). discriminate.
Defined.

Section LowerCase.

Lemma lower_char_idem (c : ascii) :
  Str.lower_char (Str.lower_char c) = Str.lower_char c.
Proof. destruct c as [[] [] [] [] [] [] [] []]; reflexivity. Qed.

Lemma isspace_lower_char (c : ascii) :
  Str.isspace (Str.lower_char c) = Str.isspace c.
Proof. destruct c as [[] [] [] [] [] [] [] []]; reflexivity. Qed.

Lemma isdecimal_lower_char (c : ascii) :
  Str.isdecimal (Str.lower_char c) = Str.isdecimal c.
Proof. destruct c as [[] [] [] [] [] [] [] []]; reflexivity. Qed.

Lemma lower_char_digit (c : ascii) :
  Str.isdecimal c = true -> Str.lower_char c = c.
Proof.
  destruct c as [[] [] [] [] [] [] [] []]; vm_compute; congruence.
Qed.

Lemma literal_ignorecase_lower (lit s : string) :
  Re.literal_ignorecase lit (Str.lower s)
  = Str.lower <$> Re.literal_ignorecase lit s.
Proof.
  revert s. induction lit as [|p lit IH]; intros s; [reflexivity|].
  destruct s as [|c s]; [reflexivity|]. simpl.
  rewrite lower_char_idem.
  destruct (Ascii.eqb (Str.lower_char c) (Str.lower_char p)); [apply IH|].
  reflexivity.
Qed.

Lemma keyword_lower (s : string) :
  Re.keyword (Str.lower s) = Str.lower <$> Re.keyword s.
Proof.
  unfold Re.keyword. rewrite !literal_ignorecase_lower.
  now destruct (Re.literal_ignorecase "HTTP" s).
Qed.

Lemma skip_spaces_lower (s : string) :
  Re.skip_spaces (Str.lower s) = Str.lower (Re.skip_spaces s).
Proof.
  induction s as [|c s IH]; [reflexivity|]. simpl.
  rewrite isspace_lower_char. now destruct (Str.isspace c).
Qed.

Lemma spaces1_lower (s : string) :
  Re.spaces1 (Str.lower s) = Str.lower <$> Re.spaces1 s.
Proof.
  destruct s as [|c s]; [reflexivity|]. simpl.
  rewrite isspace_lower_char, skip_spaces_lower.
  now destruct (Str.isspace c).
Qed.

Lemma digits3_lower (s : string) :
  Re.digits3 (Str.lower s) = Re.digits3 s.
Proof.
  destruct s as [|a [|b [|c s]]]; try reflexivity. simpl.
  rewrite !isdecimal_lower_char.
  destruct (Str.isdecimal a) eqn:Ha; [|reflexivity].
  destruct (Str.isdecimal b) eqn:Hb; [|reflexivity].
  destruct (Str.isdecimal c) eqn:Hc; [|reflexivity].
  simpl. now rewrite !lower_char_digit.
Qed.

Lemma match_here_lower (s : string) :
  Re.match_here (Str.lower s) = Re.match_here s.
Proof.
  unfold Re.match_here. rewrite keyword_lower.
  destruct (Re.keyword s) as [r|]; [|reflexivity]. simpl.
  rewrite spaces1_lower.
  destruct (Re.spaces1 r) as [r'|]; [|reflexivity]. simpl.
  apply digits3_lower.
Qed.

Lemma search_lower (s : string) :
  Re.search (Str.lower s) = Re.search s.
Proof.
  induction s as [|c s IH]; [reflexivity|].
  change (Str.lower (String c s))
    with (String (Str.lower_char c) (Str.lower s)).
  cbn [Re.search].
  change (String (Str.lower_char c) (Str.lower s))
    with (Str.lower (String c s)).
  rewrite match_here_lower, IH. reflexivity.
Qed.

End LowerCase.

(** X3: the status extracted does not depend on the case of the message:
    lowering the message leaves it unchanged. *)
Theorem extract_status_ignores_case (s : string) :
  extract_status_from_error (Str.lower s) = extract_status_from_error s.
Proof.
  unfold extract_status_from_error. now rewrite search_lower.
Qed.

(** ** [test_proxy]: what every result satisfies *)

Section Results.

Variable requests_get : network.
Variable row : gmap string (option string).
Variable proxy_field : string.
Variables location_field protocol_field : option string.

(** A result of [test_proxy] is what the [finally] block builds. *)
Lemma test_proxy_returns (r : ProxyResult) :
  test_proxy requests_get row proxy_field location_field protocol_field
  = Return r ->
  exists proxy_url,
    proxy_url_of row proxy_field protocol_field = Return proxy_url /\
    r = finally_block row location_field proxy_url
          (try_except requests_get proxy_url initial_locals).1.
Proof.
  unfold test_proxy.
  destruct (proxy_url_of row proxy_field protocol_field) as [u|e] eqn:Hu;
    simpl; [|discriminate].
  destruct (try_except requests_get u initial_locals) as [l p] eqn:Ht.
  intros [= <-]. exists u. split; [reflexivity|]. now rewrite Ht.
Qed.

(** The locals after the [try] statement: [error_message] is empty or a
    label of one of the five clauses followed by the text of the
    exception. *)
Ltac labelled label :=
  right; eexists _, _, _, _, label;
  split; [reflexivity | split; [unfold handled_as; tauto | reflexivity]].

(** The locals after the [try] statement: [error_message] is empty, or the
    body raised an exception of [requests] and it is the label of the
    clause that handled it followed by the text of the exception. *)
Lemma try_except_error_message (proxy_url : option string) :
  v_error_message (try_except requests_get proxy_url initial_locals).1 = "" \/
  exists l isa msg response label,
    try_body requests_get proxy_url initial_locals
    = (l, Some (Raised isa msg response)) /\
    handled_as isa response label /\
    v_error_message (try_except requests_get proxy_url initial_locals).1
    = label ++ ": " ++ msg.
Proof.
  unfold try_except.
  destruct (try_body requests_get proxy_url initial_locals) as [l' [e|]] eqn:Hb;
    [|left].
  - pose proof (try_body_raises _ _ _ _ _ Hb) as ->.
    destruct e as [k|m|isa msg response]; simpl; try (now left).
    destruct (isa HTTPError) eqn:E1.
    { destruct response as [c|]; [|now left].
      right. exists initial_locals, isa, msg, (Some c), "HTTPError".
      split; [reflexivity|]. split; [|reflexivity].
      left. repeat split; eauto. }
    destruct (isa ProxyError) eqn:E2; [labelled "ProxyError"|].
    destruct (isa ConnectionError) eqn:E3; [labelled "ConnectionError"|].
    destruct (isa Timeout) eqn:E4; [labelled "TimeoutError"|].
    destruct (isa RequestException) eqn:E5;
      [labelled "RequestException"|].
    now left.
  - unfold try_body in Hb.
    destruct (requests_get (request_through proxy_url)) as [response|e];
      [|discriminate].
    destruct (json response) as [j|e]; [|discriminate]. simpl in Hb.
    destruct (Py.get j "timezone" (VStr "Unknown")); [|discriminate].
    now inversion Hb.
Qed.

End Results.

(** X4: every result has status 0 or a status of at least 200: no status
    between 1 and 199, and no negative one, is ever reported. *)
Theorem status_zero_or_at_least_200 (requests_get : network)
    (row : gmap string (option string)) (proxy_field : string)
    (location_field protocol_field : option string) (r : ProxyResult) :
  test_proxy requests_get row proxy_field location_field protocol_field
  = Return r ->
  status r = 0%Z \/ (200 <= status r)%Z.
Proof.
  intros H. apply test_proxy_returns in H as (u & _ & ->). simpl.
  destruct (Z.ltb_spec
              (v_status_code (try_except requests_get u initial_locals).1)
              200); auto.
Qed.

Lemma status_zero_or_at_least_200_witness :
  status {| proxy := Some "1.2.3.4:8080"; status := 0; location := Some "Iceland";
            real_location := VStr "Failed";
            error := "ConnectionError: Max retries exceeded with url: /json" |}
  = 0%Z \/
  (200 <= status {| proxy := Some "1.2.3.4:8080"; status := 0;
                    location := Some "Iceland"; real_location := VStr "Failed";
                    error := "ConnectionError: Max retries exceeded with url: /json" |})%Z.
Proof.
  apply (status_zero_or_at_least_200 unreachable (free_proxy_row "yes")
           "IP Address" (Some "Country") None).
  reflexivity.
Defined.

(** X5: the [real_location] of a result is never a falsy value: in particular it
    is never [None] and never the empty string. *)
Theorem real_location_truthy (requests_get : network)
    (row : gmap string (option string)) (proxy_field : string)
    (location_field protocol_field : option string) (r : ProxyResult) :
  test_proxy requests_get row proxy_field location_field protocol_field
  = Return r ->
  Py.truthy (real_location r) = true /\
  real_location r <> VNone /\ real_location r <> VStr "".
Proof.
  intros H. apply test_proxy_returns in H as (u & _ & ->). simpl.
  destruct (Py.truthy
              (v_real_location (try_except requests_get u initial_locals).1))
    eqn:E.
  - split; [exact E|]. split; intros Hv; rewrite Hv in E; discriminate.
  - split; [reflexivity|]. split; discriminate.
Qed.

Lemma real_location_truthy_witness :
  Py.truthy (VStr "UTC") = true /\ VStr "UTC" <> VNone /\ VStr "UTC" <> VStr "".
Proof.
  apply (real_location_truthy
           (answers 200 (Return (VDict {["timezone" := VStr "UTC"]})))
           (free_proxy_row "yes") "IP Address" (Some "Country") None
           {| proxy := Some "1.2.3.4:8080"; status := 200; location := Some "Iceland";
              real_location := VStr "UTC"; error := "" |}).
  reflexivity.
Defined.

(** X6: the [location] of a result is the value of the location column of the
    row, and "Unknown" when no location field is configured or the row has
    no such column; the network has no part in it. *)
Theorem location_from_row (requests_get : network)
    (row : gmap string (option string)) (proxy_field : string)
    (location_field protocol_field : option string) (r : ProxyResult) :
  test_proxy requests_get row proxy_field location_field protocol_field
  = Return r ->
  (location_field = None \/ location_field = Some "" ->
   location r = Some "Unknown") /\
  (forall f, location_field = Some f -> f <> "" -> row !! f = None ->
             location r = Some "Unknown") /\
  (forall f v, location_field = Some f -> f <> "" -> row !! f = Some v ->
               location r = v).
Proof.
  intros H. apply test_proxy_returns in H as (u & _ & ->). simpl.
  split; [|split].
  - now intros [-> | ->].
  - intros f -> Hf Hrow. simpl. destruct f; [congruence|]. simpl.
    now rewrite Hrow.
  - intros f v -> Hf Hrow. simpl. destruct f; [congruence|]. simpl.
    now rewrite Hrow.
Qed.

Lemma location_from_row_witness :
  location {| proxy := Some "1.2.3.4:8080"; status := 0;
              location := Some "Iceland";
              real_location := VStr "Failed";
              error := "ConnectionError: Max retries exceeded with url: /json" |}
  = Some "Iceland".
Proof.
  apply (proj2 (proj2 (location_from_row unreachable (free_proxy_row "yes")
                         "IP Address" (Some "Country") None _ eq_refl))
           "Country" (Some "Iceland"));
    [reflexivity | discriminate | reflexivity].
Defined.

(** X7: the [error] of a result is empty, or the body of [try] raised an
    exception of [requests] and the error is the label of the clause that
    handled it, followed by a colon, a space and the text of that
    exception; it is empty whenever the body of [try] completes. *)
Theorem error_is_empty_or_labelled (requests_get : network)
    (row : gmap string (option string)) (proxy_field : string)
    (location_field protocol_field : option string) (r : ProxyResult) :
  test_proxy requests_get row proxy_field location_field protocol_field
  = Return r ->
  exists proxy_url,
    proxy_url_of row proxy_field protocol_field = Return proxy_url /\
    (error r = "" \/
     exists l isa msg response label,
       try_body requests_get proxy_url initial_locals
       = (l, Some (Raised isa msg response)) /\
       handled_as isa response label /\
       error r = label ++ ": " ++ msg) /\
    (forall l,
        try_body requests_get proxy_url initial_locals = (l, None) ->
        error r = "").
Proof.
  intros H. apply test_proxy_returns in H as (u & Hu & ->).
  exists u. split; [exact Hu|]. simpl. split.
  - apply try_except_error_message.
  - intros l Hbody. unfold try_except. rewrite Hbody. simpl.
    unfold try_body in Hbody.
    destruct (requests_get (request_through u)) as [response|e];
      [|discriminate].
    destruct (json response) as [j|e]; [|discriminate]. simpl in Hbody.
    destruct (Py.get j "timezone" (VStr "Unknown")); [|discriminate].
    now inversion Hbody.
Qed.

Lemma error_is_empty_or_labelled_witness :
  exists proxy_url,
    proxy_url_of (free_proxy_row "yes") "IP Address" None
    = Return proxy_url /\
    ("ConnectionError: Max retries exceeded with url: /json" = "" \/
     exists l isa msg response label,
       try_body unreachable proxy_url initial_locals
       = (l, Some (Raised isa msg response)) /\
       handled_as isa response label /\
       "ConnectionError: Max retries exceeded with url: /json"
       = label ++ ": " ++ msg) /\
    (forall l,
        try_body unreachable proxy_url initial_locals = (l, None) ->
        "ConnectionError: Max retries exceeded with url: /json" = "").
Proof.
  apply (error_is_empty_or_labelled unreachable (free_proxy_row "yes")
           "IP Address" (Some "Country") None
           {| proxy := Some "1.2.3.4:8080"; status := 0;
              location := Some "Iceland"; real_location := VStr "Failed";
              error := "ConnectionError: Max retries exceeded with url: /json" |}).
  reflexivity.
Defined.

(** ** [test_proxy]: the request and its failures *)

(** X8: [test_proxy] makes one request: a GET of [TARGET_URL] with a timeout of
    5 seconds and the proxy URL of the row as proxy for both schemes.  Two
    networks that answer such requests alike give the same outcome. *)
Theorem result_depends_on_one_request (net1 net2 : network)
    (row : gmap string (option string)) (proxy_field : string)
    (location_field protocol_field : option string) :
  (forall req proxy_url,
      proxy_url_of row proxy_field protocol_field = Return proxy_url ->
      url req = "https://ipinfo.io/json" -> timeout req = 5%Z ->
      proxies req !! "http" = Some proxy_url ->
      proxies req !! "https" = Some proxy_url ->
      net1 req = net2 req) ->
  test_proxy net1 row proxy_field location_field protocol_field
  = test_proxy net2 row proxy_field location_field protocol_field.
Proof.
  intros H. unfold test_proxy.
  destruct (proxy_url_of row proxy_field protocol_field) as [u|e] eqn:Hu;
    [|reflexivity].
  simpl. unfold try_except, try_body.
  rewrite (H (request_through u) u eq_refl eq_refl eq_refl);
    reflexivity.
Qed.

Lemma result_depends_on_one_request_witness :
  test_proxy (fun req => if bool_decide (timeout req = 5%Z)
                         then unreachable req
                         else answers 200 (Return VNone) req)
             (free_proxy_row "yes") "IP Address" None None
  = test_proxy unreachable (free_proxy_row "yes") "IP Address" None None.
Proof.
  apply result_depends_on_one_request.
  intros req proxy_url _ _ Ht _ _. rewrite Ht. reflexivity.
Defined.

(** X9: an [HTTPError] that carries no response is lost: the clause raises on
    [e.response.status_code] before it sets the error text, and the result
    has status 0 and an empty error. *)
Theorem http_error_without_response_is_silent (requests_get : network)
    (row : gmap string (option string)) (proxy_field : string)
    (location_field protocol_field : option string)
    (proxy_url : option string)
    (isa : exc_class -> bool) (msg : string) :
  proxy_url_of row proxy_field protocol_field = Return proxy_url ->
  requests_get (request_through proxy_url) = Raise (Raised isa msg None) ->
  isa HTTPError = true ->
  exists r,
    test_proxy requests_get row proxy_field location_field protocol_field
    = Return r /\
    status r = 0%Z /\ error r = "" /\ real_location r = VStr "Failed".
Proof.
  intros Hu Hget Hisa. eexists. split.
  - apply test_proxy_finally; eassumption.
  - unfold try_except, try_body. rewrite Hget. simpl. rewrite Hisa.
    repeat split.
Qed.

Lemma http_error_without_response_is_silent_witness :
  exists r,
    test_proxy (fun _ => Raise (Raised (fun _ => true) "404 Client Error" None))
               (free_proxy_row "yes") "IP Address" None None
    = Return r /\
    status r = 0%Z /\ error r = "" /\ real_location r = VStr "Failed".
Proof.
  apply (http_error_without_response_is_silent
           (fun _ => Raise (Raised (fun _ => true) "404 Client Error" None))
           (free_proxy_row "yes") "IP Address" None None (Some "1.2.3.4:8080")
           (fun _ => true) "404 Client Error");
    reflexivity.
Defined.

(** X10: a response whose body decodes to JSON that is not an object (a list, a
    string, a number, [null]) is reported as a failure with no error text,
    whatever its status code: status 0, empty error, "Failed". *)
Theorem non_object_body_is_silent_failure (requests_get : network)
    (row : gmap string (option string)) (proxy_field : string)
    (location_field protocol_field : option string)
    (proxy_url : option string)
    (response : Response) (body : value) :
  proxy_url_of row proxy_field protocol_field = Return proxy_url ->
  requests_get (request_through proxy_url) = Return response ->
  json response = Return body ->
  (forall d, body <> VDict d) ->
  exists r,
    test_proxy requests_get row proxy_field location_field protocol_field
    = Return r /\
    status r = 0%Z /\ error r = "" /\ real_location r = VStr "Failed".
Proof.
  intros Hu Hget Hjson Hbody. eexists. split.
  - apply test_proxy_finally; eassumption.
  - unfold try_except, try_body. rewrite Hget, Hjson.
    destruct body; try (repeat split; fail).
    now destruct (Hbody d).
Qed.

Lemma non_object_body_is_silent_failure_witness :
  exists r,
    test_proxy (answers 200 (Return (VList [VStr "UTC"])))
               (free_proxy_row "yes") "IP Address" None None
    = Return r /\
    status r = 0%Z /\ error r = "" /\ real_location r = VStr "Failed".
Proof.
  apply (non_object_body_is_silent_failure
           (answers 200 (Return (VList [VStr "UTC"])))
           (free_proxy_row "yes") "IP Address" None None (Some "1.2.3.4:8080")
           {| status_code := 200; json := Return (VList [VStr "UTC"]) |}
           (VList [VStr "UTC"]));
    try reflexivity.
  intros d. discriminate.
Defined.

(** X11: for a proxy or connection error the status of the result comes from the
    text of the error: it is the number of the first status token of the
    text when that number is at least 200, and 0 when it is smaller or the
    text has no token. *)
Theorem status_recovered_from_error_text (requests_get : network)
    (row : gmap string (option string)) (proxy_field : string)
    (location_field protocol_field : option string)
    (proxy_url : option string)
    (isa : exc_class -> bool) (msg : string) (response : option Z) :
  proxy_url_of row proxy_field protocol_field = Return proxy_url ->
  requests_get (request_through proxy_url)
  = Raise (Raised isa msg response) ->
  isa HTTPError = false ->
  isa ProxyError = true \/ isa ConnectionError = true ->
  exists r,
    test_proxy requests_get row proxy_field location_field protocol_field
    = Return r /\
    (forall i n, Token.first_at msg i n -> (200 <= n)%Z -> status r = n) /\
    (forall i n, Token.first_at msg i n -> (n < 200)%Z -> status r = 0%Z) /\
    ((forall i n, ~ Token.occurs_at msg i n) -> status r = 0%Z) /\
    (status r <> 0%Z <->
     exists i n, Token.first_at msg i n /\ (200 <= n)%Z).
Proof.
  intros Hu Hget Hhttp Hclass.
  assert (Hl : v_status_code (try_except requests_get proxy_url initial_locals).1
               = extract_status_from_error msg).
  { unfold try_except, try_body. rewrite Hget. simpl. rewrite Hhttp.
    destruct Hclass as [-> | Hc]; [reflexivity|].
    destruct (isa ProxyError); [reflexivity|]. now rewrite Hc. }
  eexists. split; [apply test_proxy_finally; eassumption|].
  simpl. rewrite Hl.
  split; [|split; [|split]].
  - intros i n Hf Hn. rewrite (extract_first _ _ _ Hf).
    destruct (Z.ltb_spec n 200); [lia | reflexivity].
  - intros i n Hf Hn. rewrite (extract_first _ _ _ Hf).
    destruct (Z.ltb_spec n 200); [reflexivity | lia].
  - intros Hno. rewrite (extract_no_token _ Hno). reflexivity.
  - split.
    + intros Hs. destruct (extract_token_or_zero msg) as [[i Hf] | [_ H0]].
      * exists i, (extract_status_from_error msg). split; [exact Hf|].
        destruct (Z.ltb_spec (extract_status_from_error msg) 200);
          [congruence | lia].
      * rewrite H0 in Hs. simpl in Hs. congruence.
    + intros (i & n & Hf & Hn). rewrite (extract_first _ _ _ Hf).
      destruct (Z.ltb_spec n 200); lia.
Qed.

Lemma status_recovered_from_error_text_witness :
  exists r,
    test_proxy (fun _ => Raise (Raised (fun c => match c with
                                                 | HTTPError => false
                                                 | _ => true
                                                 end)
                                       "HTTP 407 Proxy Authentication Required"
                                       None))
               (free_proxy_row "yes") "IP Address" None None
    = Return r /\
    status r = 407%Z.
Proof.
  destruct (status_recovered_from_error_text
              (fun _ => Raise (Raised (fun c => match c with
                                                | HTTPError => false
                                                | _ => true
                                                end)
                                      "HTTP 407 Proxy Authentication Required"
                                      None))
              (free_proxy_row "yes") "IP Address" None None (Some "1.2.3.4:8080")
              (fun c => match c with HTTPError => false | _ => true end)
              "HTTP 407 Proxy Authentication Required" None
              eq_refl eq_refl eq_refl (or_introl eq_refl))
    as (r & Hr & Hge & _).
  exists r. split; [exact Hr|].
  destruct (search_sound "HTTP 407 Proxy Authentication Required" "407"
              eq_refl) as [i Hi].
  apply (Hge i 407%Z Hi). lia.
Defined.

(** ** [process_proxies]: the limit *)

Local Close Scope string_scope.

(** X12: a negative limit is not a count: [rows[:limit]] then leaves out the
    last [-limit] rows of the file. *)
Theorem negative_limit_drops_from_end
    (rows : list (gmap string (option string))) (n : Z) :
  (n < 0)%Z ->
  submitted rows (Some n) = take (length rows - Z.to_nat (- n)) rows /\
  Z.of_nat (length (submitted rows (Some n)))
  = Z.max 0 (Z.of_nat (length rows) + n) /\
  submitted rows (Some n) ++ drop (length rows - Z.to_nat (- n)) rows = rows.
Proof.
  intros Hn. unfold submitted, Py.slice_to.
  destruct (Z.eqb_spec n 0) as [|_]; [lia|]. simpl.
  destruct (Z.leb_spec 0 n) as [|_]; [lia|].
  split; [reflexivity|]. split.
  - rewrite length_take. lia.
  - apply take_drop.
Qed.

Lemma negative_limit_drops_from_end_witness :
  submitted sample_rows (Some (-1)%Z) = [free_proxy_row "yes"; ∅].
Proof.
  apply (negative_limit_drops_from_end sample_rows (-1)). lia.
Defined.

(** X13: whatever the limit, the rows submitted are a prefix of the rows read:
    the limit never reorders rows, never skips one in the middle and never
    adds one. *)
Theorem submitted_is_prefix (rows : list (gmap string (option string)))
    (limit : option Z) :
  submitted rows limit `prefix_of` rows /\
  length (submitted rows limit) <= length rows.
Proof.
  assert (H : submitted rows limit `prefix_of` rows).
  { unfold submitted, Py.slice_to. destruct limit as [n|]; [|reflexivity].
    destruct (negb (n =? 0)%Z); [|reflexivity].
    destruct (0 <=? n)%Z; apply prefix_take. }
  split; [exact H|]. now apply prefix_length.
Qed.

(** ** [process_proxies]: the file and the console *)

Section Batch.

Variable net : nat -> network.
Variable proxy_field : string.
Variables location_field protocol_field : option string.

Lemma futures_of_lookup (rows : list (gmap string (option string))) (i : nat)
    (f : result ProxyResult) :
  futures_of net rows proxy_field location_field protocol_field !! i = Some f ->
  exists row,
    rows !! i = Some row /\
    f = test_proxy (net i) row proxy_field location_field protocol_field.
Proof.
  unfold futures_of. rewrite list_lookup_imap.
  destruct (rows !! i) as [row|]; [|discriminate].
  intros [= <-]. now exists row.
Qed.

Lemma collect_saved (futures : list (result ProxyResult)) (out : output)
    (i : nat) :
  saved_lines (printed out) = written out ->
  saved_lines (printed (collect futures out i))
  = written (collect futures out i).
Proof.
  intros H. unfold collect, saved_lines in *.
  destruct (futures !! i) as [[r|e]|]; simpl; [| |exact H];
    rewrite omap_app, H; simpl; now rewrite ?app_nil_r.
Qed.

Lemma foldl_collect_saved (futures : list (result ProxyResult))
    (completed : list nat) (out : output) :
  saved_lines (printed out) = written out ->
  saved_lines (printed (foldl (collect futures) out completed))
  = written (foldl (collect futures) out completed).
Proof.
  revert out. induction completed as [|i completed IH]; intros out H;
    [exact H|].
  simpl. apply IH. now apply collect_saved.
Qed.

Lemma foldl_collect_header (futures : list (result ProxyResult))
    (completed : list nat) (out : output) :
  header (foldl (collect futures) out completed) = header out.
Proof.
  revert out. induction completed as [|i completed IH]; intros out;
    [reflexivity|].
  simpl. rewrite IH. unfold collect.
  now destruct (futures !! i) as [[r|e]|].
Qed.


End Batch.

(** X14: the file and the console agree, whatever the order of completion: the
    header is the five field names of [ProxyResult], and the results
    reported as saved on the console are the rows of the file, in the same
    order. *)
Theorem console_matches_file (net : nat -> network) (completed : list nat)
    (rows : list (gmap string (option string))) (proxy_field : string)
    (location_field protocol_field : option string) (limit : option Z) :
  let out :=
    process_proxies net completed rows proxy_field location_field
                    protocol_field limit in
  header out = ["proxy"; "status"; "location"; "real_location"; "error"]%string /\
  saved_lines (printed out) = written out /\
  length (written out) + length (error_lines (printed out))
  = length (printed out).
Proof.
  intros out. unfold out, process_proxies.
  split; [apply foldl_collect_header|].
  split; [now apply foldl_collect_saved|].
  rewrite <- (foldl_collect_saved _ completed) by reflexivity.
  generalize (printed
    (foldl
       (collect
          (futures_of net (submitted rows limit) proxy_field location_field
             protocol_field))
       {| header := ["proxy"; "status"; "location"; "real_location"; "error"]%string;
          written := []; printed := [] |} completed)).
  intros console. unfold saved_lines, error_lines.
  induction console as [|[r|e] console IH];
    cbn [omap list_omap length] in *; lia.
Qed.

(** X15: when no submitted row has the proxy column, the batch writes no row at
    all: the output file holds its header only, and the console has one
    [KeyError] line per submitted row. *)
Theorem missing_proxy_column_writes_nothing (net : nat -> network)
    (completed : list nat) (rows : list (gmap string (option string)))
    (proxy_field : string) (location_field protocol_field : option string)
    (limit : option Z) :
  let out :=
    process_proxies net completed rows proxy_field location_field
                    protocol_field limit in
  (forall row, row ∈ submitted rows limit -> row !! proxy_field = None) ->
  completed ≡ₚ seq 0 (length (submitted rows limit)) ->
  written out = [] /\
  error_lines (printed out)
  = replicate (length (submitted rows limit)) (KeyError proxy_field).
Proof.
  intros out Hrows Hperm.
  set (futures := futures_of net (submitted rows limit) proxy_field
                    location_field protocol_field).
  assert (Hf : forall i, i ∈ completed ->
                         futures !! i = Some (Raise (KeyError proxy_field))).
  { intros i Hi. rewrite Hperm in Hi. apply elem_of_seq in Hi.
    destruct (lookup_lt_is_Some_2 (submitted rows limit) i ltac:(lia))
      as [row Hrow].
    unfold futures, futures_of. rewrite list_lookup_imap, Hrow. simpl.
    f_equal. unfold test_proxy, proxy_url_of, Py.getitem.
    rewrite (Hrows row); [reflexivity|].
    eapply list_elem_of_lookup_2; eassumption. }
  assert (Hw : written out
               = omap (fun i => futures !! i ≫= returned) completed)
    by apply (foldl_collect_written futures completed).
  assert (He : error_lines (printed out)
               = omap (fun i => futures !! i ≫= raised) completed)
    by apply (foldl_collect_errors futures completed).
  rewrite Hw, He.
  rewrite <- (length_seq (length (submitted rows limit)) 0), <- Hperm.
  clear Hw He Hperm.
  induction completed as [|i completed IH]; [split; reflexivity|].
  cbn [omap list_omap length replicate].
  rewrite (Hf i) by apply list_elem_of_here. simpl.
  destruct IH as [IH1 IH2].
  { intros j Hj. apply Hf. now apply list_elem_of_further. }
  split; [exact IH1 | now rewrite IH2].
Qed.

Lemma missing_proxy_column_writes_nothing_witness :
  let out :=
    process_proxies (fun _ => unreachable) [1; 0; 2] sample_rows "proxy"
                    (Some "Country") None None in
  written out = [] /\
  error_lines (printed out)
  = [KeyError "proxy"; KeyError "proxy"; KeyError "proxy"]%string.
Proof.
  apply (missing_proxy_column_writes_nothing (fun _ => unreachable) [1; 0; 2]
           sample_rows "proxy"%string (Some "Country"%string) None None).
  - intros row Hrow.
    repeat (apply elem_of_cons in Hrow as [-> | Hrow]; [reflexivity|]).
    now apply elem_of_nil in Hrow.
  - simpl. apply perm_swap.
Defined.





(** ** [read_csv]: the header and the rows *)

Section Strip.

Local Open Scope string_scope.

Lemma lstrip_decompose (s : string) :
  exists l, s = l ++ lstrip s /\ Str.all Str.isspace l = true.
Proof.
  induction s as [|c s (l & Hl & Hs)]; simpl.
  - now exists "".
  - destruct (Str.isspace c) eqn:E.
    + exists (String c l). simpl. rewrite E, Hs. split; [congruence | first [reflexivity | assumption]].
    + now exists "".
Qed.

Lemma lstrip_head (s t : string) (c : ascii) :
  lstrip s = String c t -> Str.isspace c = false.
Proof.
  induction s as [|x s IH]; simpl; [discriminate|].
  destruct (Str.isspace x) eqn:E; [exact IH|]. now intros [= <- _].
Qed.

Lemma lstrip_fixed (s : string) :
  (forall c t, s = String c t -> Str.isspace c = false) -> lstrip s = s.
Proof.
  destruct s as [|c s]; [reflexivity|]. intros H. simpl.
  now rewrite (H c s eq_refl).
Qed.

Lemma rstrip_decompose (s : string) :
  exists r, s = rstrip s ++ r /\ Str.all Str.isspace r = true.
Proof.
  induction s as [|c s (r & Hr & Hs)]; simpl.
  - now exists "".
  - destruct (rstrip s) as [|y t] eqn:E.
    + destruct (Str.isspace c) eqn:Ec.
      * exists (String c r). simpl in *. rewrite Ec, Hs. split; [congruence | first [reflexivity | assumption]].
      * exists r. simpl in *. split; [congruence | first [reflexivity | assumption]].
    + exists r. simpl in *. split; [congruence | first [reflexivity | assumption]].
Qed.

Lemma rstrip_last (s t : string) (c : ascii) :
  rstrip s = t ++ String c "" -> Str.isspace c = false.
Proof.
  revert t. induction s as [|x s IH]; intros t; simpl.
  - destruct t; discriminate.
  - destruct (rstrip s) as [|y u] eqn:E.
    + destruct (Str.isspace x) eqn:Ex.
      * destruct t; discriminate.
      * destruct t as [|z [|z' t]]; simpl; try discriminate.
        now intros [= <-].
    + destruct t as [|z t]; simpl; [discriminate|].
      intros [= _ Ht]. now apply (IH t).
Qed.

Lemma rstrip_head (s t : string) (c : ascii) :
  rstrip s = String c t -> exists t', s = String c t'.
Proof.
  destruct s as [|x s]; simpl; [discriminate|].
  destruct (rstrip s); [destruct (Str.isspace x); [discriminate|]|];
    intros [= <- _]; eauto.
Qed.

Lemma rstrip_idem (s : string) : rstrip (rstrip s) = rstrip s.
Proof.
  induction s as [|c s IH]; [reflexivity|]. simpl.
  destruct (rstrip s) as [|y t] eqn:E.
  - destruct (Str.isspace c) eqn:Ec; simpl; [reflexivity | now rewrite Ec].
  - simpl in *. now rewrite IH.
Qed.

Lemma strip_head (s t : string) (c : ascii) :
  strip s = String c t -> Str.isspace c = false.
Proof.
  unfold strip. intros H. apply rstrip_head in H as [t' H].
  now apply lstrip_head in H.
Qed.

End Strip.

(** X17: [strip], which [read_csv] applies to every field name, removes
    whitespace from both ends and nothing else: what is left neither starts
    nor ends with whitespace, and stripping it again changes nothing. *)
Theorem strip_removes_surrounding_whitespace (s : string) :
  (exists l r,
      s = (l ++ strip s ++ r)%string /\
      Str.all Str.isspace l = true /\ Str.all Str.isspace r = true) /\
  (forall c t, strip s = String c t -> Str.isspace c = false) /\
  (forall t c, strip s = (t ++ String c "")%string -> Str.isspace c = false) /\
  strip (strip s) = strip s.
Proof.
  split; [|split; [|split]].
  - destruct (lstrip_decompose s) as (l & Hl & Hls).
    destruct (rstrip_decompose (lstrip s)) as (r & Hr & Hrs).
    exists l, r. unfold strip. now rewrite <- Hr.
  - intros c t. apply strip_head.
  - unfold strip. intros t c. apply rstrip_last.
  - unfold strip at 1. rewrite (lstrip_fixed (strip s)).
    + unfold strip. apply rstrip_idem.
    + intros c t. apply strip_head.
Qed.

Lemma strip_removes_surrounding_whitespace_witness :
  Str.isspace "I" = false /\ Str.isspace "s" = false.
Proof.
  split.
  - apply (proj1 (proj2 (strip_removes_surrounding_whitespace
                           "  IP Address ")) "I"%char "P Address"%string).
    reflexivity.
  - apply (proj1 (proj2 (proj2 (strip_removes_surrounding_whitespace
                                  "  IP Address ")))
             "IP Addres"%string "s"%char).
    reflexivity.
Defined.

Section DictReader.

Implicit Types (d : gmap (option string) cell) (f r : list string).

Lemma zip_fields_None f r d :
  foldl (fun d kv => <[Some kv.1 := Field kv.2]> d) d (zip f r) !! None
  = d !! None.
Proof.
  revert r d. induction f as [|a f IH]; intros [|b r] d; try reflexivity.
  simpl. rewrite IH. now apply lookup_insert_ne.
Qed.

Lemma zip_fields_untouched f r d (k : string) :
  (forall j, f !! j <> Some k) ->
  foldl (fun d kv => <[Some kv.1 := Field kv.2]> d) d (zip f r) !! Some k
  = d !! Some k.
Proof.
  revert r d. induction f as [|a f IH]; intros [|b r] d H; try reflexivity.
  simpl. rewrite IH.
  - apply lookup_insert_ne. intros [= ->]. now apply (H 0).
  - intros j. apply (H (S j)).
Qed.

Lemma zip_fields_last f r d (i : nat) (k v : string) :
  f !! i = Some k -> r !! i = Some v ->
  (forall j, i < j -> f !! j <> Some k) ->
  foldl (fun d kv => <[Some kv.1 := Field kv.2]> d) d (zip f r) !! Some k
  = Some (Field v).
Proof.
  revert r d i. induction f as [|a f IH]; intros [|b r] d [|i] Hf Hr Hlast;
    try discriminate; simpl in *.
  - injection Hf as ->. injection Hr as ->.
    rewrite zip_fields_untouched.
    + apply lookup_insert_eq.
    + intros j. apply (Hlast (S j)). lia.
  - apply (IH r _ i Hf Hr). intros j Hj. apply (Hlast (S j)). lia.
Qed.

Lemma zip_fields_is_Some f r d (k : string) :
  is_Some (foldl (fun d kv => <[Some kv.1 := Field kv.2]> d) d (zip f r)
           !! Some k)
  <-> is_Some (d !! Some k) \/ exists i, i < length r /\ f !! i = Some k.
Proof.
  revert r d. induction f as [|a f IH]; intros [|b r] d; simpl.
  - split; [auto | intros [H | (i & _ & H)]; [exact H | discriminate]].
  - split; [auto | intros [H | (i & _ & H)]; [exact H | discriminate]].
  - split; [auto | intros [H | (i & Hi & _)]; [exact H | lia]].
  - rewrite IH, lookup_insert_is_Some. split.
    + intros [[[= ->] | [_ H]] | (i & Hi & H)].
      * right. exists 0. split; [lia | reflexivity].
      * now left.
      * right. exists (S i). split; [lia | exact H].
    + intros [H | ([|i] & Hi & H)].
      * left. destruct (decide (a = k)) as [-> | Hne]; [now left|].
        right. split; [congruence | exact H].
      * injection H as ->. left. now left.
      * right. exists i. split; [lia | exact H].
Qed.

Lemma restval_in (ks : list string) d (k : string) :
  k ∈ ks ->
  foldl (fun d key => <[Some key := Restval]> d) d ks !! Some k
  = Some Restval.
Proof.
  revert d. induction ks as [|a ks IH]; intros d Hk.
  - now apply elem_of_nil in Hk.
  - simpl. destruct (decide (k ∈ ks)) as [Hin | Hout]; [now apply IH|].
    apply elem_of_cons in Hk as [-> | Hk]; [|contradiction].
    clear IH. revert d. induction ks as [|b ks IH]; intros d; simpl.
    + apply lookup_insert_eq.
    + rewrite not_elem_of_cons in Hout. destruct Hout as [Hne Hout].
      rewrite insert_insert_ne by congruence. now apply IH.
Qed.

Lemma restval_out (ks : list string) d (key : option string) :
  (forall k, key = Some k -> k ∉ ks) ->
  foldl (fun d key => <[Some key := Restval]> d) d ks !! key = d !! key.
Proof.
  revert d. induction ks as [|a ks IH]; intros d H; [reflexivity|].
  simpl. rewrite IH.
  - apply lookup_insert_ne. intros <-. apply (H a eq_refl), list_elem_of_here.
  - intros k Hk Hin. apply (H k Hk). now apply list_elem_of_further.
Qed.

(** The columns of a row are the field names, whatever the length of the
    record. *)
Lemma dict_row_columns f r (k : string) :
  is_Some (dict_row f r !! Some k) <-> k ∈ f.
Proof.
  unfold dict_row, dict_zip.
  destruct (Nat.ltb_spec (length f) (length r)) as [Hlong|Hle].
  - rewrite lookup_insert_ne by discriminate.
    rewrite zip_fields_is_Some, lookup_empty, list_elem_of_lookup.
    split.
    + intros [[? [=]] | (i & _ & H)]. eauto.
    + intros [i H]. right. exists i. split; [|exact H].
      apply lookup_lt_Some in H. lia.
  - destruct (Nat.ltb_spec (length r) (length f)) as [Hshort|Hge].
    + destruct (decide (k ∈ drop (length r) f)) as [Hin | Hout].
      * rewrite restval_in by exact Hin. split; [|eauto].
        intros _. apply list_elem_of_lookup in Hin as [i Hi].
        rewrite lookup_drop in Hi. eapply list_elem_of_lookup_2, Hi.
      * rewrite restval_out by (intros ? [= <-]; exact Hout).
        rewrite zip_fields_is_Some, lookup_empty, list_elem_of_lookup.
        split.
        -- intros [[? [=]] | (i & _ & H)]. eauto.
        -- intros [i H]. right. exists i. split; [|exact H].
           destruct (Nat.lt_ge_cases i (length r)) as [|Hi]; [assumption|].
           exfalso. apply Hout. apply list_elem_of_lookup.
           exists (i - length r). rewrite lookup_drop.
           now replace (length r + (i - length r)) with i by lia.
    + rewrite zip_fields_is_Some, lookup_empty, list_elem_of_lookup.
      split.
      * intros [[? [=]] | (i & _ & H)]. eauto.
      * intros [i H]. right. exists i. split; [|exact H].
        apply lookup_lt_Some in H. lia.
Qed.

(** The value of a column: the field at the place of the last field name
    equal to it. *)
Lemma dict_row_field f r (i : nat) (k v : string) :
  f !! i = Some k -> r !! i = Some v ->
  (forall j, i < j -> f !! j <> Some k) ->
  dict_row f r !! Some k = Some (Field v).
Proof.
  intros Hf Hr Hlast. unfold dict_row, dict_zip.
  destruct (Nat.ltb_spec (length f) (length r)) as [Hlong|Hle].
  - rewrite lookup_insert_ne by discriminate.
    now apply (zip_fields_last f r ∅ i).
  - destruct (Nat.ltb_spec (length r) (length f)) as [Hshort|Hge].
    + rewrite restval_out.
      * now apply (zip_fields_last f r ∅ i).
      * intros k' [= <-] Hin. apply list_elem_of_lookup in Hin as [j Hj].
        rewrite lookup_drop in Hj. apply (Hlast (length r + j)); [|exact Hj].
        apply lookup_lt_Some in Hr. lia.
    + now apply (zip_fields_last f r ∅ i).
Qed.

Lemma dict_row_restkey f r :
  dict_row f r !! None
  = if Nat.ltb (length f) (length r) then Some (Rest (drop (length f) r))
    else None.
Proof.
  unfold dict_row, dict_zip.
  destruct (Nat.ltb (length f) (length r)).
  - apply lookup_insert_eq.
  - destruct (Nat.ltb (length r) (length f)).
    + rewrite restval_out by discriminate. now rewrite zip_fields_None.
    + now rewrite zip_fields_None.
Qed.

Lemma dict_row_restval f r (i : nat) (k : string) :
  f !! i = Some k -> length r <= i ->
  dict_row f r !! Some k = Some Restval.
Proof.
  intros Hf Hi. unfold dict_row.
  destruct (Nat.ltb_spec (length f) (length r)) as [Hlong|Hle].
  - apply lookup_lt_Some in Hf. lia.
  - destruct (Nat.ltb_spec (length r) (length f)) as [Hshort|Hge].
    + apply restval_in, list_elem_of_lookup. exists (i - length r).
      rewrite lookup_drop.
      now replace (length r + (i - length r)) with i by lia.
    + apply lookup_lt_Some in Hf. lia.
Qed.

(** The [n]-th row of [read_csv] is built from the [n]-th record that is
    not blank. *)
Lemma read_csv_row (hdr : list string) (recs : list (list string))
    (rows : list (gmap (option string) cell)) (n : nat) d :
  read_csv (hdr :: recs) = Some rows ->
  rows !! n = Some d ->
  exists rec,
    filter (fun row => row <> []) recs !! n = Some rec /\
    rec <> [] /\ rec ∈ recs /\
    d = dict_row (strip <$> hdr) rec.
Proof.
  intros [= <-]. rewrite list_lookup_fmap.
  destruct (filter (fun row => row <> []) recs !! n) as [rec|] eqn:E;
    [|discriminate].
  intros [= <-]. exists rec. split; [reflexivity|].
  apply list_elem_of_lookup_2, list_elem_of_filter in E as [Hne Hin]. auto.
Qed.

End DictReader.

(** X18: an empty file makes [read_csv] raise.  Otherwise it returns one row per
    record after the header that is not blank, and every row has exactly the
    columns of the header, each under its name without the surrounding
    whitespace, even when the record is shorter than the header. *)
Theorem read_csv_rows_and_columns (records : list (list string)) :
  (read_csv records = None <-> records = []) /\
  (forall hdr recs rows,
      records = hdr :: recs -> read_csv records = Some rows ->
      length rows = length (filter (fun row => row <> []) recs) /\
      forall d, d ∈ rows ->
        forall k, is_Some (d !! Some k)
                  <-> exists name, name ∈ hdr /\ k = strip name).
Proof.
  split.
  - destruct records; simpl; split; congruence.
  - intros hdr recs rows -> Hread. split.
    + injection Hread as <-. apply length_fmap.
    + intros d Hd k. apply list_elem_of_lookup in Hd as [n Hn].
      destruct (read_csv_row _ _ _ _ _ Hread Hn) as (rec & _ & _ & _ & ->).
      rewrite dict_row_columns, list_elem_of_fmap.
      split; intros (name & H1 & H2); exists name; auto.
Qed.

Lemma read_csv_rows_and_columns_witness :
  is_Some (dict_row ["IP Address"; "Https"]%string ["1.2.3.4:8080"]%string
           !! Some "Https"%string).
Proof.
  apply (proj2 (read_csv_rows_and_columns
                  [[" IP Address"; "Https "]; []; ["1.2.3.4:8080"]]%string)
           [" IP Address"; "Https "]%string [[]; ["1.2.3.4:8080"%string]]
           [dict_row ["IP Address"; "Https"]%string ["1.2.3.4:8080"]%string]
           eq_refl eq_refl).
  - apply list_elem_of_here.
  - exists "Https "%string. split; [|reflexivity].
    apply list_elem_of_further, list_elem_of_here.
Defined.

(** X19: a column of a row read by [read_csv] is found under its name without
    surrounding whitespace, and holds the field of the record at the place
    of that column; when several names of the header are equal once
    stripped, the last of them decides. *)
Theorem read_csv_field (hdr : list string) (recs : list (list string))
    (rows : list (gmap (option string) cell)) (n : nat)
    (d : gmap (option string) cell) (rec : list string)
    (i : nat) (name v : string) :
  read_csv (hdr :: recs) = Some rows ->
  rows !! n = Some d ->
  filter (fun row => row <> []) recs !! n = Some rec ->
  hdr !! i = Some name -> rec !! i = Some v ->
  (forall j name', i < j -> hdr !! j = Some name' ->
                   strip name' <> strip name) ->
  d !! Some (strip name) = Some (Field v).
Proof.
  intros Hread Hn Hrec Hname Hv Hlast.
  destruct (read_csv_row _ _ _ _ _ Hread Hn) as (rec' & Hrec' & _ & _ & ->).
  rewrite Hrec in Hrec'. injection Hrec' as <-.
  apply (dict_row_field _ _ i).
  - now rewrite list_lookup_fmap, Hname.
  - exact Hv.
  - intros j Hj. rewrite list_lookup_fmap.
    destruct (hdr !! j) as [name'|] eqn:E; [|discriminate].
    simpl. intros [= H]. now apply (Hlast j name' Hj E).
Qed.

Lemma read_csv_field_witness :
  dict_row ["proxy"; "country"; "proxy"]%string
           ["a:1"; "Iceland"; "b:2"]%string
  !! Some "proxy"%string
  = Some (Field "b:2").
Proof.
  apply (read_csv_field [" proxy"; "country"; "proxy "]%string
           [["a:1"; "Iceland"; "b:2"]%string]
           [dict_row ["proxy"; "country"; "proxy"]%string
                     ["a:1"; "Iceland"; "b:2"]%string]
           0 _ ["a:1"; "Iceland"; "b:2"]%string 2 "proxy "%string "b:2"%string);
    try reflexivity.
  intros [|[|[|j]]] name' Hj; try lia; discriminate.
Defined.

(** X20: records that do not fit the header: the fields beyond the header are
    kept as a list under the key [None], and a column that the record is too
    short for holds [None] instead of a string. *)
Theorem read_csv_ragged_record (hdr : list string) (recs : list (list string))
    (rows : list (gmap (option string) cell)) (n : nat)
    (d : gmap (option string) cell) (rec : list string) :
  read_csv (hdr :: recs) = Some rows ->
  rows !! n = Some d ->
  filter (fun row => row <> []) recs !! n = Some rec ->
  (length hdr < length rec ->
   d !! None = Some (Rest (drop (length hdr) rec))) /\
  (length rec <= length hdr -> d !! None = None) /\
  (forall i name, hdr !! i = Some name -> length rec <= i ->
                  d !! Some (strip name) = Some Restval).
Proof.
  intros Hread Hn Hrec.
  destruct (read_csv_row _ _ _ _ _ Hread Hn) as (rec' & Hrec' & _ & _ & ->).
  rewrite Hrec in Hrec'. injection Hrec' as <-.
  split; [|split].
  - intros Hlong. rewrite dict_row_restkey, length_fmap.
    now rewrite (proj2 (Nat.ltb_lt _ _) Hlong).
  - intros Hle. rewrite dict_row_restkey, length_fmap.
    now rewrite (proj2 (Nat.ltb_ge _ _) Hle).
  - intros i name Hname Hi. apply (dict_row_restval _ _ i); [|exact Hi].
    now rewrite list_lookup_fmap, Hname.
Qed.

Lemma read_csv_ragged_record_witness :
  dict_row ["proxy"; "country"]%string ["a:1"]%string !! Some "country"%string
  = Some Restval /\
  dict_row ["proxy"]%string ["a:1"; "x"; "y"]%string !! None
  = Some (Rest ["x"; "y"]%string).
Proof.
  split.
  - apply (proj2 (proj2 (read_csv_ragged_record
                           ["proxy"; " country"]%string [["a:1"%string]]
                           [dict_row ["proxy"; "country"]%string ["a:1"]%string]
                           0 _ ["a:1"%string] eq_refl eq_refl eq_refl))
             1 " country"%string); [reflexivity | simpl; lia].
  - apply (proj1 (read_csv_ragged_record
                    ["proxy"%string] [["a:1"; "x"; "y"]%string]
                    [dict_row ["proxy"]%string ["a:1"; "x"; "y"]%string]
                    0 _ ["a:1"; "x"; "y"]%string eq_refl eq_refl eq_refl)).
    simpl. lia.
Defined.

(** ** The driver *)

Section Driver.

Lemma length_omap_le {A B} (f : A -> option B) (l : list A) :
  length (omap f l) <= length l.
Proof.
  induction l as [|x l IH]; [reflexivity|].
  cbn [omap list_omap length]. destruct (f x); simpl; lia.
Qed.

Lemma written_at_most_submitted (net : nat -> network) (completed : list nat)
    (rows : list (gmap string (option string))) (proxy_field : string)
    (location_field protocol_field : option string) (limit : option Z) :
  completed ≡ₚ seq 0 (length (submitted rows limit)) ->
  length (written (process_proxies net completed rows proxy_field
                     location_field protocol_field limit))
  <= length (submitted rows limit).
Proof.
  intros Hperm. unfold process_proxies.
  rewrite foldl_collect_written. simpl.
  etransitivity; [apply length_omap_le|].
  now rewrite Hperm, length_seq.
Qed.

Lemma submitted_at_most_LIMIT (rows : list (gmap string (option string))) :
  length (submitted rows (Some LIMIT)) <= 20.
Proof.
  unfold submitted, LIMIT. simpl.
  rewrite slice_to_positive by lia. rewrite length_take. lia.
Qed.

Lemma process_file_returns (env : batch_env) (output_file proxy_field : string)
    (location_field protocol_field : option string) (limit : option Z)
    (path : string) (out : output) :
  process_file env output_file proxy_field location_field protocol_field limit
  = Some (path, out) ->
  exists rows,
    rows_read env = Some rows /\
    path = results_path output_file /\
    out = process_proxies (net_of env) (completion env) rows proxy_field
            location_field protocol_field limit.
Proof.
  unfold process_file. destruct (rows_read env) as [rows|]; [|discriminate].
  simpl. intros [= <- <-]. now exists rows.
Qed.

Lemma until_failure_elem {A} (calls : list (option A)) (a : A) :
  a ∈ (until_failure calls).1 -> Some a ∈ calls.
Proof.
  induction calls as [|[b|] calls IH]; simpl.
  - intros H. now apply elem_of_nil in H.
  - destruct (until_failure calls) as [done ok]. simpl in *.
    intros [-> | H]%elem_of_cons.
    + apply list_elem_of_here.
    + apply list_elem_of_further. now apply IH.
  - intros H. now apply elem_of_nil in H.
Qed.

End Driver.

(** X21: the driver runs its four batches one after the other and has no
    handler of its own: the first input file that cannot be read ends the
    run, and the files after it are not processed.  All four batches are
    done exactly when all four files are read. *)
Theorem main_stops_at_unreadable_file
    (proxyscape free_proxy proxy_nova geonode : batch_env) :
  let run := main proxyscape free_proxy proxy_nova geonode in
  (run.2 = true <->
   is_Some (rows_read proxyscape) /\ is_Some (rows_read free_proxy) /\
   is_Some (rows_read proxy_nova) /\ is_Some (rows_read geonode)) /\
  (run.2 = true -> length run.1 = 4) /\
  (rows_read proxyscape = None -> run.1 = []) /\
  (rows_read free_proxy = None -> length run.1 <= 1) /\
  (rows_read proxy_nova = None -> length run.1 <= 2) /\
  (rows_read geonode = None -> length run.1 <= 3) /\
  run.1.*1 `prefix_of`
    ["results/proxyscrape-results.csv"; "results/free-proxy-list-results.csv";
     "results/proxynova-results.csv"; "results/geonode-results.csv"]%string.
Proof.
  intros run. unfold run, main, process_file.
  destruct (rows_read proxyscape) as [r1|];
    destruct (rows_read free_proxy) as [r2|];
    destruct (rows_read proxy_nova) as [r3|];
    destruct (rows_read geonode) as [r4|]; simpl.
  all: repeat split; try (intros; simpl; lia); try discriminate; eauto;
    try (intros (H1 & H2 & H3 & H4);
         match goal with
         | H : is_Some None |- _ => destruct H as [? H]; discriminate H
         end).
  all: try (eexists; reflexivity).
Qed.

Lemma main_stops_at_unreadable_file_witness :
  length (main {| rows_read := Some sample_rows;
                  net_of := fun _ => unreachable;
                  completion := [0; 1; 2] |}
               {| rows_read := None;
                  net_of := fun _ => unreachable;
                  completion := [] |}
               {| rows_read := Some sample_rows;
                  net_of := fun _ => unreachable;
                  completion := [0; 1; 2] |}
               {| rows_read := Some sample_rows;
                  net_of := fun _ => unreachable;
                  completion := [0; 1; 2] |}).1 <= 1.
Proof.
  apply (proj1 (proj2 (proj2 (proj2
           (main_stops_at_unreadable_file
              {| rows_read := Some sample_rows;
                 net_of := fun _ => unreachable;
                 completion := [0; 1; 2] |}
              {| rows_read := None;
                 net_of := fun _ => unreachable;
                 completion := [] |}
              {| rows_read := Some sample_rows;
                 net_of := fun _ => unreachable;
                 completion := [0; 1; 2] |}
              {| rows_read := Some sample_rows;
                 net_of := fun _ => unreachable;
                 completion := [0; 1; 2] |}))))).
  reflexivity.
Defined.

(** X22: every output file that the driver writes has at most [LIMIT] = 20 rows
    under its header, however many rows the input files have. *)
Theorem main_writes_at_most_LIMIT_rows
    (proxyscape free_proxy proxy_nova geonode : batch_env) :
  (forall env rows,
      env ∈ [proxyscape; free_proxy; proxy_nova; geonode] ->
      rows_read env = Some rows ->
      completion env ≡ₚ seq 0 (length (submitted rows (Some LIMIT)))) ->
  forall path out,
    (path, out) ∈ (main proxyscape free_proxy proxy_nova geonode).1 ->
    length (written out) <= 20.
Proof.
  intros Hperm path out Hin. unfold main in Hin.
  apply until_failure_elem in Hin.
  assert (Hall : forall env output_file proxy_field location_field
                        protocol_field,
             env ∈ [proxyscape; free_proxy; proxy_nova; geonode] ->
             Some (path, out)
             = process_file env output_file proxy_field location_field
                            protocol_field (Some LIMIT) ->
             length (written out) <= 20).
  { intros env f pf lf prf Henv Hp. symmetry in Hp.
    apply process_file_returns in Hp as (rows & Hrows & _ & ->).
    etransitivity.
    - apply written_at_most_submitted. now apply Hperm.
    - apply submitted_at_most_LIMIT. }
  repeat (apply elem_of_cons in Hin as [Hin | Hin];
          [eapply Hall; [|exact Hin]; set_solver|]).
  now apply elem_of_nil in Hin.
Qed.

Lemma main_writes_at_most_LIMIT_rows_witness :
  length (written (process_proxies (fun _ => unreachable) [0; 1; 2]
                     sample_rows "proxy"%string
                     (Some "ip_data_timezone"%string) None (Some LIMIT)))
  <= 20.
Proof.
  apply (main_writes_at_most_LIMIT_rows
           {| rows_read := Some sample_rows;
              net_of := fun _ => unreachable;
              completion := [0; 1; 2] |}
           {| rows_read := None;
              net_of := fun _ => unreachable;
              completion := [] |}
           {| rows_read := None;
              net_of := fun _ => unreachable;
              completion := [] |}
           {| rows_read := None;
              net_of := fun _ => unreachable;
              completion := [] |})
    with (path := "results/proxyscrape-results.csv"%string).
  - intros env rows Henv Hrows.
    repeat (apply elem_of_cons in Henv as [-> | Henv];
            [simpl in Hrows; first [discriminate Hrows
                                   | injection Hrows as <-; reflexivity]|]).
    now apply elem_of_nil in Henv.
  - apply list_elem_of_here.
Defined.

(** ** [read_csv] and [process_proxies] together *)

Section Records.

Lemma seen_by_name_keys (l : list (option string * cell)) :
  NoDup l.*1 ->
  NoDup (omap (fun kc : option string * cell =>
                 match kc with
                 | (Some k, c) =>
                     match cell_value c with
                     | Some v => Some (k, v)
                     | None => None
                     end
                 | (None, _) => None
                 end) l).*1.
Proof.
  induction l as [|[[k|] c] l IH]; intros Hnd; [constructor| |];
    rewrite fmap_cons in Hnd.
  - apply NoDup_cons in Hnd as [Hk Hnd]. cbn [omap list_omap].
    destruct (cell_value c) as [v|]; [|now apply IH].
    rewrite fmap_cons. apply NoDup_cons. split; [|now apply IH].
    intros Hin. apply Hk.
    apply list_elem_of_fmap in Hin as ([k' v'] & Heq & Hin).
    simpl in Heq. subst k'.
    apply list_elem_of_omap in Hin as ([[k''|] c''] & Hin & Hf);
      [|discriminate].
    destruct (cell_value c''); [|discriminate]. injection Hf as -> _.
    apply list_elem_of_fmap. now exists (Some k, c'').
  - apply NoDup_cons in Hnd as [_ Hnd]. cbn [omap list_omap]. now apply IH.
Qed.

(** Looking a field name up in a row of [read_csv]. *)
Lemma seen_by_name_lookup (d : gmap (option string) cell) (k : string) :
  seen_by_name d !! k = d !! Some k ≫= cell_value.
Proof.
  apply option_eq. intros v. unfold seen_by_name.
  rewrite <- elem_of_list_to_map
    by apply seen_by_name_keys, NoDup_fst_map_to_list.
  rewrite list_elem_of_omap. split.
  - intros ([[k'|] c] & Hin & Hf); [|discriminate].
    destruct (cell_value c) as [v'|] eqn:Hc; [|discriminate].
    injection Hf as -> ->. apply elem_of_map_to_list in Hin.
    rewrite Hin. exact Hc.
  - destruct (d !! Some k) as [c|] eqn:Hd; [|discriminate]. simpl.
    intros Hc. exists (Some k, c). split.
    + now apply elem_of_map_to_list.
    + now rewrite Hc.
Qed.

(** Under a field name a row of [DictReader] holds a field or [None]. *)
Lemma zip_fields_values (f r : list string) (d : gmap (option string) cell)
    (key : option string) (c : cell) :
  foldl (fun d kv => <[Some kv.1 := Field kv.2]> d) d (zip f r) !! key
  = Some c ->
  d !! key = Some c \/ exists v, c = Field v.
Proof.
  revert r d. induction f as [|a f IH]; intros [|b r] d; simpl; auto.
  intros H. apply IH in H as [H | H]; [|now right].
  destruct (decide (Some a = key)) as [<- | Hne].
  - rewrite lookup_insert_eq in H. injection H as <-. right. eauto.
  - rewrite lookup_insert_ne in H by exact Hne. now left.
Qed.


End Records.

Section RecordsBatch.

Lemma restval_values (ks : list string) (d : gmap (option string) cell)
    (key : option string) (c : cell) :
  foldl (fun d key => <[Some key := Restval]> d) d ks !! key = Some c ->
  c = Restval \/ d !! key = Some c.
Proof.
  revert d. induction ks as [|a ks IH]; intros d; simpl; [auto|].
  intros H. apply IH in H as [H | H]; [now left|].
  destruct (decide (Some a = key)) as [<- | Hne].
  - rewrite lookup_insert_eq in H. injection H as <-. now left.
  - rewrite lookup_insert_ne in H by exact Hne. now right.
Qed.

(** Under a field name a row of [read_csv] never holds a list. *)
Lemma dict_row_named_value (f r : list string) (k : string) (c : cell) :
  dict_row f r !! Some k = Some c -> is_Some (cell_value c).
Proof.
  unfold dict_row, dict_zip.
  destruct (Nat.ltb (length f) (length r)).
  - rewrite lookup_insert_ne by discriminate.
    intros [H | [v ->]]%zip_fields_values; [|eexists; reflexivity].
    now rewrite lookup_empty in H.
  - destruct (Nat.ltb (length r) (length f)).
    + intros [-> | H]%restval_values; [eexists; reflexivity|].
      apply zip_fields_values in H as [H | [v ->]]; [|eexists; reflexivity].
      now rewrite lookup_empty in H.
    + intros [H | [v ->]]%zip_fields_values; [|eexists; reflexivity].
      now rewrite lookup_empty in H.
Qed.

Lemma seen_by_name_column (f r : list string) (k : string) :
  k ∈ f -> is_Some (seen_by_name (dict_row f r) !! k).
Proof.
  intros Hk. rewrite seen_by_name_lookup.
  apply dict_row_columns with (r := r) in Hk as [c Hc]. rewrite Hc. simpl.
  now apply dict_row_named_value in Hc.
Qed.


End RecordsBatch.

(** X23: on the rows of a CSV file, a record too short to reach the protocol
    column is not tested: [DictReader] gives that column the value [None],
    [test_proxy] raises [AttributeError] on it before the request, and the
    batch logs the error and writes no row for the record. *)
Theorem short_record_is_skipped (net : nat -> network) (completed : list nat)
    (hdr : list string) (recs : list (list string))
    (rows : list (gmap (option string) cell)) (n : nat)
    (d : gmap (option string) cell) (rec : list string)
    (proxy_field pf name : string) (location_field : option string)
    (i : nat) :
  read_csv (hdr :: recs) = Some rows ->
  rows !! n = Some d ->
  filter (fun row => row <> []) recs !! n = Some rec ->
  proxy_field ∈ strip <$> hdr ->
  hdr !! i = Some name -> strip name = pf -> Str.truthy pf = true ->
  length rec <= i ->
  (forall requests_get,
      test_proxy requests_get (seen_by_name d) proxy_field location_field
                 (Some pf)
      = Raise (AttributeError "'NoneType' object has no attribute 'lower'")) /\
  (completed ≡ₚ seq 0 (length rows) ->
   let out :=
     process_proxies net completed (seen_by_name <$> rows) proxy_field
                     location_field (Some pf) None in
   AttributeError "'NoneType' object has no attribute 'lower'"
   ∈ error_lines (printed out) /\
   length (written out) < length rows).
Proof.
  intros Hread Hn Hrec Hproxy Hname Hpf Htruthy Hshort.
  destruct (read_csv_row _ _ _ _ _ Hread Hn) as (rec' & Hrec' & _ & _ & Hd).
  rewrite Hrec in Hrec'. injection Hrec' as <-.
  assert (Hraise : forall requests_get,
             test_proxy requests_get (seen_by_name d) proxy_field
                        location_field (Some pf)
             = Raise (AttributeError
                        "'NoneType' object has no attribute 'lower'")).
  { intros requests_get.
    assert (Hp : is_Some (seen_by_name d !! proxy_field))
      by (rewrite Hd; now apply seen_by_name_column).
    assert (Hv : seen_by_name d !! pf = Some None).
    { rewrite seen_by_name_lookup, Hd, <- Hpf.
      rewrite (dict_row_restval _ _ i); [reflexivity| |exact Hshort].
      now rewrite list_lookup_fmap, Hname. }
    destruct Hp as [a Ha].
    unfold test_proxy, proxy_url_of, Py.getitem.
    rewrite Ha. simpl. rewrite Htruthy, Hv. reflexivity. }
  split; [exact Hraise|].
  intros Hperm out.
  set (futures := futures_of net (seen_by_name <$> rows) proxy_field
                    location_field (Some pf)).
  assert (Hlen : length futures = length rows)
    by (unfold futures, futures_of; now rewrite length_imap, length_fmap).
  assert (Hfn : futures !! n
                = Some (Raise (AttributeError
                                 "'NoneType' object has no attribute 'lower'"))).
  { unfold futures, futures_of.
    rewrite list_lookup_imap, list_lookup_fmap, Hn. simpl. f_equal.
    apply Hraise. }
  assert (Hw : written out
               = omap (fun i => futures !! i ≫= returned) completed)
    by apply (foldl_collect_written futures completed).
  assert (He : error_lines (printed out)
               = omap (fun i => futures !! i ≫= raised) completed)
    by apply (foldl_collect_errors futures completed).
  assert (Hwp : written out ≡ₚ omap returned futures).
  { rewrite Hw, Hperm, <- Hlen. now rewrite omap_lookup_seq. }
  assert (Hep : error_lines (printed out) ≡ₚ omap raised futures).
  { rewrite He, Hperm, <- Hlen. now rewrite omap_lookup_seq. }
  assert (Hin : AttributeError "'NoneType' object has no attribute 'lower'"
                ∈ omap raised futures).
  { apply list_elem_of_omap.
    exists (Raise (AttributeError
                     "'NoneType' object has no attribute 'lower'")).
    split; [|reflexivity].
    eapply list_elem_of_lookup_2. exact Hfn. }
  split.
  - now rewrite Hep.
  - rewrite Hwp.
    pose proof (returned_or_raised futures) as Hsum.
    apply list_elem_of_lookup in Hin as [j Hj].
    apply lookup_lt_Some in Hj. lia.
Qed.

Lemma short_record_is_skipped_witness :
  test_proxy unreachable
    (seen_by_name (dict_row ["IP Address"; "Https"]%string
                            ["1.2.3.4:8080"]%string))
    "IP Address" None (Some "Https")
  = Raise (AttributeError "'NoneType' object has no attribute 'lower'").
Proof.
  apply (proj1 (short_record_is_skipped (fun _ => unreachable) [0]
                  ["IP Address"; "Https"]%string [["1.2.3.4:8080"%string]]
                  [dict_row ["IP Address"; "Https"]%string
                            ["1.2.3.4:8080"]%string]
                  0 _ ["1.2.3.4:8080"%string] "IP Address"%string
                  "Https"%string "Https"%string None 1
                  eq_refl eq_refl eq_refl
                  (list_elem_of_here _ _) eq_refl eq_refl eq_refl
                  (le_n 1))).
Defined.


